(** * journey: the trip-planning API, its notifier and their contracts

    A shallow embedding of [internal/api/api.go] and
    [internal/mailer/mailpit/mailpit.go].

    - Each Go package is a module: [time], [uuid], [json], [validator],
      [zap], [pgtype], [http], [spec], [pgstore], [mail], [mailpit], [api].
    - The interfaces of the program ([api.store], [api.mailer],
      [mailpit.store]) are type classes over the state of the world behind
      them; so are the libraries the handlers call ([uuid.Codec],
      [json.Decoder], [validator.Validate], [mail.AddressParser],
      [mail.Transport]) and the order in which Go ranges over a map
      ([runtime.MapOrder]).
    - A Go function returning [(T, error)] returns a pair of a [T] and an
      [option error]; a handler is a computation in the state monad [api.M]
      over the world, the logger and the goroutines it has launched, and it
      either returns a response or panics.
    - [api.go] is present twice: as the generated scaffold, where every
      handler is [panic("not implemented")], and as the implementation, which
      is the one embedded here; four of its handlers are still the scaffold's.
    - Package [pgstore] (the queries behind the stores) and the SMTP server
      are given by models, in [pgstore] and [mail]; module [journey] wires
      the program the way [NewAPI] and [NewMailPit] do. *)

From Stdlib Require Import ZArith Ascii String DecimalString DecimalN DecimalPos.
From stdpp Require Import base option list gmap strings fin_maps.

Local Open Scope Z_scope.

(** ** Go's [error] values

    [pgx.ErrNoRows] is the sentinel the handlers test with [errors.Is];
    [fmt.Errorf("...: %w", err)] wraps an error, and [errors.Is] looks
    through the wrapping. *)

Inductive error : Type :=
| ErrNoRows
| errors_New (msg : string)
| fmt_Errorf (msg : string) (wrapped : error).

#[global] Instance error_eq_dec : EqDecision error.
Proof. solve_decision. Defined.

(** [errors.Is(err, target)] *)
Fixpoint errors_Is (err target : error) : bool :=
  if decide (err = target) then true
  else match err with
       | fmt_Errorf _ wrapped => errors_Is wrapped target
       | _ => false
       end.

(** [err.Error()] *)
Fixpoint Error (err : error) : string :=
  match err with
  | ErrNoRows => "no rows in result set"
  | errors_New msg => msg
  | fmt_Errorf msg wrapped => msg +:+ ": " +:+ Error wrapped
  end.

(** ** Package [time]: civil time and the [DateOnly] layout *)

Module time.

(** A [time.Time] as its civil fields in the time's location (the store
    returns timestamps without time zone, which pgx reads as UTC). *)
Record Time : Type := Date {
  Year : Z; Month : Z; Day : Z;
  Hour : Z; Minute : Z; Second : Z; Nanosecond : Z
}.

#[global] Instance Time_eq_dec : EqDecision Time.
Proof. solve_decision. Defined.

(** The zero [time.Time{}]: January 1, year 1, 00:00:00 UTC. *)
Definition zero : Time := Date 1 1 1 0 0 0 0.

(** The calendar date of a time: what is left when the time of day is
    ignored. *)
Definition calendar_date (t : Time) : Z * Z * Z := (Year t, Month t, Day t).

(** A time whose month and day are those of a calendar. *)
Definition civil (t : Time) : Prop :=
  1 <= Month t <= 12 /\ 1 <= Day t <= 31.

(** The first instant of the calendar date of a time. *)
Definition midnight (t : Time) : Time := Date (Year t) (Month t) (Day t) 0 0 0 0.

(** Decimal digits of a natural number, most significant first. *)
Definition digits (u : N) : list ascii :=
  list_ascii_of_string (NilZero.string_of_uint (N.to_uint u)).

(** [appendInt(b, x, width)]: the decimal form of [x], with a leading minus
    sign when negative, zero-padded to [width] digits. *)
Definition appendInt (b : list ascii) (x : Z) (width : nat) : list ascii :=
  let u := Z.abs_N x in
  let b := if x <? 0 then b ++ ["-"%char] else b in
  let ds := digits u in
  b ++ replicate (width - length ds)%nat "0"%char ++ ds.

(** [t.Format(time.DateOnly)], layout ["2006-01-02"]. *)
Definition Format_DateOnly (t : Time) : string :=
  let b := appendInt [] (Year t) 4 in
  let b := b ++ ["-"%char] in
  let b := appendInt b (Month t) 2 in
  let b := b ++ ["-"%char] in
  let b := appendInt b (Day t) 2 in
  string_of_list_ascii b.

Definition isDigit (c : ascii) : bool :=
  (48 <=? nat_of_ascii c)%nat && (nat_of_ascii c <=? 57)%nat.

Definition digit_value (c : ascii) : Z := Z.of_nat (nat_of_ascii c) - 48.

Definition isLeap (year : Z) : bool :=
  (year mod 4 =? 0) && (negb (year mod 100 =? 0) || (year mod 400 =? 0)).

(** [daysIn(m, year)] *)
Definition daysIn (m year : Z) : Z :=
  if m =? 2 then (if isLeap year then 29 else 28)
  else 30 + Z.land (m + Z.shiftr m 3) 1.

(** A time on a day that exists, in a year of four digits. *)
Definition dated (t : Time) : Prop :=
  0 <= Year t <= 9999 /\ 1 <= Month t <= 12
  /\ 1 <= Day t <= daysIn (Month t) (Year t).

(** [time.Parse(time.DateOnly, value)]: four digits of year, two of month
    and two of day, separated by dashes, nothing else; the month and the day
    of the month are range-checked.  On an error the zero time is
    returned with it. *)
Definition Parse_DateOnly (value : string) : Time * option error :=
  match list_ascii_of_string value with
  | [y1; y2; y3; y4; s1; m1; m2; s2; d1; d2] =>
      if forallb isDigit [y1; y2; y3; y4; m1; m2; d1; d2]
         && Ascii.eqb s1 "-" && Ascii.eqb s2 "-" then
        let year := 1000 * digit_value y1 + 100 * digit_value y2
                    + 10 * digit_value y3 + digit_value y4 in
        let month := 10 * digit_value m1 + digit_value m2 in
        let day := 10 * digit_value d1 + digit_value d2 in
        if (month <=? 0) || (12 <? month) then
          (zero, Some (errors_New "parsing time: month out of range"))
        else if (day <? 1) || (daysIn month year <? day) then
          (zero, Some (errors_New "parsing time: day out of range"))
        else (Date year month day 0 0 0 0, None)
      else (zero, Some (errors_New "parsing time: cannot parse value"))
  | _ => (zero, Some (errors_New "parsing time: cannot parse value"))
  end.

End time.

(** ** Package [uuid] (github.com/google/uuid)

    A [uuid.UUID] is a 16-byte array, read here as a 128-bit number.  The
    textual codec belongs to the library and is an interface of the model. *)

Module uuid.

Abbreviation UUID := N (only parsing).

(** The zero value [uuid.UUID{}]. *)
Definition Nil : UUID := 0%N.

(** [uuid.Parse(s)], which returns the identifier and an error, and
    [id.String()]. *)
Class Codec : Type := {
  Parse : string -> UUID * option error;
  String : UUID -> string
}.

End uuid.

(** ** Package [json] and package [validator]: request decoding and struct
    validation, both driven by the declarations of the generated [spec]
    package. *)

Module json.

(** [json.NewDecoder(r.Body).Decode(&body)]: the decoded value, or the
    error. *)
Class Decoder (A : Type) : Type := Decode : string -> A + error.

End json.

Module validator.

(** [validate.Struct(body)] *)
Class Validate (A : Type) : Type := Struct : A -> option error.

End validator.

(** ** Package [zap]: structured log entries *)

Module zap.

Inductive Field : Type :=
| Error (err : error)
| String (key val : string).

(** One call of [logger.Error(msg, fields...)]. *)
Record Entry : Type := { Message : string; Fields : list Field }.

End zap.

(** ** Package [pgtype] *)

Module pgtype.

Record Timestamp : Type := { Time : time.Time; Valid : bool }.

#[global] Instance Timestamp_eq_dec : EqDecision Timestamp.
Proof. solve_decision. Defined.

Definition zero : Timestamp := {| Time := time.zero; Valid := false |}.

End pgtype.

(** ** Package [net/http]: the part of a request the handlers read *)

Module http.

Record Request : Type := { Body : string }.

End http.

(** ** Package [spec]: the request, response and error payloads

    The package is generated from the OpenAPI document.  Its structs are
    given with the fields the handlers read and write; each
    [<Operation>JSON<code>Response] constructor wraps a payload with the
    status code in its name. *)

Module spec.

Module Error.
Record t : Type := { Message : string }.
End Error.

Module CreateTripRequest.
(** Modelled from the spec: the fields of a trip creation request
    (destination, start and end, owner name and email, the emails to
    invite). *)
Record t : Type := {
  Destination : string;
  EmailsToInvite : list string;
  EndsAt : time.Time;
  OwnerEmail : string;
  OwnerName : string;
  StartsAt : time.Time
}.
End CreateTripRequest.

Module CreateTripResponse.
Record t : Type := { TripID : string }.
End CreateTripResponse.

Module GetTripDetailsResponseTripObj.
Record t : Type := {
  Destination : string;
  EndsAt : time.Time;
  ID : string;
  IsConfirmed : bool;
  StartsAt : time.Time
}.
End GetTripDetailsResponseTripObj.

Module GetTripDetailsResponse.
Record t : Type := { Trip : GetTripDetailsResponseTripObj.t }.
End GetTripDetailsResponse.

Module UpdateTripRequest.
Record t : Type := {
  Destination : string;
  EndsAt : time.Time;
  StartsAt : time.Time
}.
End UpdateTripRequest.

Module GetTripActivitiesResponseInnerArray.
Record t : Type := { ID : string; OccursAt : time.Time; Title : string }.
End GetTripActivitiesResponseInnerArray.

Module GetTripActivitiesResponseOuterArray.
Record t : Type := {
  Activities : list GetTripActivitiesResponseInnerArray.t;
  Date : time.Time
}.
End GetTripActivitiesResponseOuterArray.

Module GetTripActivitiesResponse.
Record t : Type := { Activities : list GetTripActivitiesResponseOuterArray.t }.
End GetTripActivitiesResponse.

Module CreateActivityRequest.
Record t : Type := { OccursAt : time.Time; Title : string }.
End CreateActivityRequest.

Module CreateActivityResponse.
Record t : Type := { ActivityID : string }.
End CreateActivityResponse.

Module GetLinksResponseArray.
Record t : Type := { ID : string; Title : string; URL : string }.
End GetLinksResponseArray.

Module GetLinksResponse.
Record t : Type := { Links : list GetLinksResponseArray.t }.
End GetLinksResponse.

(** The payload of a response ([body interface{}]). *)
Inductive Payload : Type :=
| Nil
| OfError (b : Error.t)
| OfCreateTripResponse (b : CreateTripResponse.t)
| OfGetTripDetailsResponse (b : GetTripDetailsResponse.t)
| OfGetTripActivitiesResponse (b : GetTripActivitiesResponse.t)
| OfCreateActivityResponse (b : CreateActivityResponse.t)
| OfGetLinksResponse (b : GetLinksResponse.t).

Record Response : Type := { body : Payload; Code : Z }.

Definition PatchParticipantsParticipantIDConfirmJSON204Response (b : Payload) : Response :=
  {| body := b; Code := 204 |}.
Definition PatchParticipantsParticipantIDConfirmJSON400Response (b : Error.t) : Response :=
  {| body := OfError b; Code := 400 |}.
Definition PostTripsJSON201Response (b : CreateTripResponse.t) : Response :=
  {| body := OfCreateTripResponse b; Code := 201 |}.
Definition PostTripsJSON400Response (b : Error.t) : Response :=
  {| body := OfError b; Code := 400 |}.
Definition GetTripsTripIDJSON200Response (b : GetTripDetailsResponse.t) : Response :=
  {| body := OfGetTripDetailsResponse b; Code := 200 |}.
Definition GetTripsTripIDJSON400Response (b : Error.t) : Response :=
  {| body := OfError b; Code := 400 |}.
Definition PutTripsTripIDJSON204Response (b : Payload) : Response :=
  {| body := b; Code := 204 |}.
Definition PutTripsTripIDJSON400Response (b : Error.t) : Response :=
  {| body := OfError b; Code := 400 |}.
Definition GetTripsTripIDActivitiesJSON200Response (b : GetTripActivitiesResponse.t) : Response :=
  {| body := OfGetTripActivitiesResponse b; Code := 200 |}.
Definition GetTripsTripIDActivitiesJSON400Response (b : Error.t) : Response :=
  {| body := OfError b; Code := 400 |}.
Definition PostTripsTripIDActivitiesJSON201Response (b : CreateActivityResponse.t) : Response :=
  {| body := OfCreateActivityResponse b; Code := 201 |}.
Definition PostTripsTripIDActivitiesJSON400Response (b : Error.t) : Response :=
  {| body := OfError b; Code := 400 |}.
Definition GetTripsTripIDLinksJSON200Response (b : GetLinksResponse.t) : Response :=
  {| body := OfGetLinksResponse b; Code := 200 |}.
Definition GetTripsTripIDLinksJSON400Response (b : Error.t) : Response :=
  {| body := OfError b; Code := 400 |}.

End spec.

(** ** Package [pgstore]: the records of the four tables and the queries

    The package (generated by sqlc from the SQL queries, plus the
    hand-written [CreateTrip]) sits behind the [store] interfaces; of its
    sources there is the migration of the participants table.  The structs
    carry the columns of the tables, with the fields the handlers and the
    notifier read and write. *)

Module pgstore.

Module Trip.
Record t : Type := {
  ID : uuid.UUID;
  Destination : string;
  OwnerEmail : string;
  OwnerName : string;
  IsConfirmed : bool;
  StartsAt : pgtype.Timestamp;
  EndsAt : pgtype.Timestamp
}.
Definition zero : t :=
  {| ID := uuid.Nil; Destination := ""; OwnerEmail := ""; OwnerName := "";
     IsConfirmed := false; StartsAt := pgtype.zero; EndsAt := pgtype.zero |}.
End Trip.

Module Participant.
Record t : Type := {
  ID : uuid.UUID;
  TripID : uuid.UUID;
  Email : string;
  IsConfirmed : bool
}.
Definition zero : t :=
  {| ID := uuid.Nil; TripID := uuid.Nil; Email := ""; IsConfirmed := false |}.
End Participant.

Module Activity.
Record t : Type := {
  ID : uuid.UUID;
  TripID : uuid.UUID;
  Title : string;
  OccursAt : pgtype.Timestamp
}.
End Activity.

Module Link.
Record t : Type := {
  ID : uuid.UUID;
  TripID : uuid.UUID;
  Title : string;
  Url : string
}.
End Link.

Module UpdateTripParams.
Record t : Type := {
  Destination : string;
  EndsAt : pgtype.Timestamp;
  StartsAt : pgtype.Timestamp;
  IsConfirmed : bool;
  ID : uuid.UUID
}.
End UpdateTripParams.

Module CreateActivityParams.
Record t : Type := {
  TripID : uuid.UUID;
  Title : string;
  OccursAt : pgtype.Timestamp
}.
End CreateActivityParams.

(** The statements the database has executed, oldest first. *)
Inductive Statement : Type :=
| ExecCreateTrip (id : uuid.UUID)
| ExecGetTrip (id : uuid.UUID)
| ExecUpdateTrip (id : uuid.UUID)
| ExecGetParticipant (id : uuid.UUID)
| ExecConfirmParticipant (id : uuid.UUID)
| ExecGetParticipants (tripID : uuid.UUID)
| ExecGetTripActivities (tripID : uuid.UUID)
| ExecCreateActivity (tripID : uuid.UUID)
| ExecGetTripLinks (tripID : uuid.UUID).

(** Modelled from the spec: the database behind [pgstore.Queries], the
    Entity Store.  Four tables keyed by their primary key; [reachable] tells
    whether the database answers at all (a transient storage failure is a
    database that does not); [executed] is the statement log. *)
Record DB : Type := {
  trips : gmap N Trip.t;
  participants : gmap N Participant.t;
  activities : gmap N Activity.t;
  links : gmap N Link.t;
  reachable : bool;
  executed : list Statement
}.

Definition empty : DB :=
  {| trips := ∅; participants := ∅; activities := ∅; links := ∅;
     reachable := true; executed := [] |}.

Definition record (st : Statement) (db : DB) : DB :=
  {| trips := trips db; participants := participants db;
     activities := activities db; links := links db;
     reachable := reachable db; executed := executed db ++ [st] |}.

Definition with_trips (f : gmap N Trip.t -> gmap N Trip.t) (db : DB) : DB :=
  {| trips := f (trips db); participants := participants db;
     activities := activities db; links := links db;
     reachable := reachable db; executed := executed db |}.

Definition with_participants
    (f : gmap N Participant.t -> gmap N Participant.t) (db : DB) : DB :=
  {| trips := trips db; participants := f (participants db);
     activities := activities db; links := links db;
     reachable := reachable db; executed := executed db |}.

Definition with_activities
    (f : gmap N Activity.t -> gmap N Activity.t) (db : DB) : DB :=
  {| trips := trips db; participants := participants db;
     activities := f (activities db); links := links db;
     reachable := reachable db; executed := executed db |}.

(** The error of a database that cannot be reached: not the no-rows
    sentinel. *)
Definition unavailable : error := errors_New "failed to connect to the database".

(** The error of a statement rejected by a foreign-key constraint
    (SQLSTATE 23503): not the no-rows sentinel either. *)
Definition foreign_key_violation : error :=
  errors_New "insert or update violates foreign key constraint (SQLSTATE 23503)".

(** Modelled from the spec: the query [GetTrip].  Get-by-ID returns the
    full record, or the no-rows sentinel when there is none. *)
Definition GetTrip (id : uuid.UUID) (db : DB) : (Trip.t * option error) * DB :=
  if reachable db then
    match trips db !! id with
    | Some trip => ((trip, None), record (ExecGetTrip id) db)
    | None => ((Trip.zero, Some ErrNoRows), record (ExecGetTrip id) db)
    end
  else ((Trip.zero, Some unavailable), db).

(** Modelled from the spec: the query [GetParticipant], get-by-ID as
    above. *)
Definition GetParticipant (id : uuid.UUID) (db : DB)
    : (Participant.t * option error) * DB :=
  if reachable db then
    match participants db !! id with
    | Some participant => ((participant, None), record (ExecGetParticipant id) db)
    | None => ((Participant.zero, Some ErrNoRows), record (ExecGetParticipant id) db)
    end
  else ((Participant.zero, Some unavailable), db).

Definition confirmed (p : Participant.t) : Participant.t :=
  {| Participant.ID := Participant.ID p; Participant.TripID := Participant.TripID p;
     Participant.Email := Participant.Email p; Participant.IsConfirmed := true |}.

(** Modelled from the spec: the query [ConfirmParticipant], the single-row
    update that flips a participant's is-confirmed to true. *)
Definition ConfirmParticipant (id : uuid.UUID) (db : DB) : option error * DB :=
  if reachable db then
    (None, record (ExecConfirmParticipant id)
             (with_participants (alter confirmed id) db))
  else (Some unavailable, db).

Definition updated (arg : UpdateTripParams.t) (trip : Trip.t) : Trip.t :=
  {| Trip.ID := Trip.ID trip;
     Trip.Destination := UpdateTripParams.Destination arg;
     Trip.OwnerEmail := Trip.OwnerEmail trip;
     Trip.OwnerName := Trip.OwnerName trip;
     Trip.IsConfirmed := UpdateTripParams.IsConfirmed arg;
     Trip.StartsAt := UpdateTripParams.StartsAt arg;
     Trip.EndsAt := UpdateTripParams.EndsAt arg |}.

(** Modelled from the spec: the query [UpdateTrip].  The update of a trip
    row writes the four columns of its parameters (destination, ends-at,
    starts-at, is-confirmed) into the row of the given ID. *)
Definition UpdateTrip (arg : UpdateTripParams.t) (db : DB) : option error * DB :=
  if reachable db then
    (None, record (ExecUpdateTrip (UpdateTripParams.ID arg))
             (with_trips (alter (updated arg) (UpdateTripParams.ID arg)) db))
  else (Some unavailable, db).

Definition invite (tripID : uuid.UUID) (db : DB) (email : string) : DB :=
  let id := fresh ({[uuid.Nil]} ∪ dom (participants db)) in
  with_participants
    (insert id {| Participant.ID := id; Participant.TripID := tripID;
                  Participant.Email := email; Participant.IsConfirmed := false |})
    db.

(** The row of a new trip. *)
Definition new_trip (tripID : uuid.UUID) (params : spec.CreateTripRequest.t) : Trip.t :=
  {| Trip.ID := tripID;
     Trip.Destination := spec.CreateTripRequest.Destination params;
     Trip.OwnerEmail := spec.CreateTripRequest.OwnerEmail params;
     Trip.OwnerName := spec.CreateTripRequest.OwnerName params;
     Trip.IsConfirmed := false;
     Trip.StartsAt :=
       {| pgtype.Time := spec.CreateTripRequest.StartsAt params;
          pgtype.Valid := true |};
     Trip.EndsAt :=
       {| pgtype.Time := spec.CreateTripRequest.EndsAt params;
          pgtype.Valid := true |} |}.

(** Modelled from the spec: the function [CreateTrip].  Creation is atomic,
    the primary key is a newly generated identifier (never the zero one),
    is-confirmed starts false, and one unconfirmed participant is created for
    each email to invite. *)
Definition CreateTrip (params : spec.CreateTripRequest.t) (db : DB)
    : (uuid.UUID * option error) * DB :=
  if reachable db then
    let tripID := fresh ({[uuid.Nil]} ∪ dom (trips db)) in
    let db := with_trips (insert tripID (new_trip tripID params)) db in
    let db := fold_left (invite tripID)
                (spec.CreateTripRequest.EmailsToInvite params) db in
    ((tripID, None), record (ExecCreateTrip tripID) db)
  else
    ((uuid.Nil, Some (fmt_Errorf "pgstore: failed to begin tx for CreateTrip" unavailable)),
     db).

(** Modelled from the spec: the queries [GetTripActivities], [GetTripLinks]
    and [GetParticipants].  List-by-trip-ID queries return the rows of the
    trip (none for a trip that does not exist). *)
Definition GetTripActivities (tripID : uuid.UUID) (db : DB)
    : (list Activity.t * option error) * DB :=
  if reachable db then
    ((filter (fun a => Activity.TripID a = tripID)
        (snd <$> map_to_list (activities db)), None),
     record (ExecGetTripActivities tripID) db)
  else (([], Some unavailable), db).

Definition GetTripLinks (tripID : uuid.UUID) (db : DB)
    : (list Link.t * option error) * DB :=
  if reachable db then
    ((filter (fun l => Link.TripID l = tripID)
        (snd <$> map_to_list (links db)), None),
     record (ExecGetTripLinks tripID) db)
  else (([], Some unavailable), db).

Definition GetParticipants (tripID : uuid.UUID) (db : DB)
    : (list Participant.t * option error) * DB :=
  if reachable db then
    ((filter (fun p => Participant.TripID p = tripID)
        (snd <$> map_to_list (participants db)), None),
     record (ExecGetParticipants tripID) db)
  else (([], Some unavailable), db).

(** Modelled from the spec: the query [CreateActivity].  The insert of an
    activity returns the new ID; the foreign key from activities to trips
    (declared like the one of the participants table) is enforced by the
    database, so an activity that references a missing trip is rejected at
    the storage boundary, by the constraint. *)
Definition CreateActivity (arg : CreateActivityParams.t) (db : DB)
    : (uuid.UUID * option error) * DB :=
  if reachable db then
    match trips db !! CreateActivityParams.TripID arg with
    | None =>
        ((uuid.Nil, Some foreign_key_violation),
         record (ExecCreateActivity (CreateActivityParams.TripID arg)) db)
    | Some _ =>
        let id := fresh ({[uuid.Nil]} ∪ dom (activities db)) in
        let activity :=
          {| Activity.ID := id;
             Activity.TripID := CreateActivityParams.TripID arg;
             Activity.Title := CreateActivityParams.Title arg;
             Activity.OccursAt := CreateActivityParams.OccursAt arg |} in
        ((id, None),
         record (ExecCreateActivity (CreateActivityParams.TripID arg))
           (with_activities (insert id activity) db))
    end
  else ((uuid.Nil, Some unavailable), db).

End pgstore.

(** ** Package [mail] (github.com/wneessen/go-mail) and the SMTP server *)

Module mail.

Record Msg : Type := {
  from : string;
  to : list string;
  subject : string;
  bodyString : string
}.

Definition NewMsg : Msg :=
  {| from := ""; to := []; subject := ""; bodyString := "" |}.

(** The address parser behind [Msg.From] and [Msg.To] ([net/mail]). *)
Class AddressParser : Type := ParseAddress : string -> option error.

Definition From `{AddressParser} (addr : string) (m : Msg) : Msg * option error :=
  match ParseAddress addr with
  | Some err => (m, Some (fmt_Errorf "failed to parse mail address" err))
  | None =>
      ({| from := addr; to := to m; subject := subject m;
          bodyString := bodyString m |}, None)
  end.

Definition To `{AddressParser} (addr : string) (m : Msg) : Msg * option error :=
  match ParseAddress addr with
  | Some err => (m, Some (fmt_Errorf "failed to parse mail address" err))
  | None =>
      ({| from := from m; to := [addr]; subject := subject m;
          bodyString := bodyString m |}, None)
  end.

Definition Subject (subj : string) (m : Msg) : Msg :=
  {| from := from m; to := to m; subject := subj; bodyString := bodyString m |}.

Definition SetBodyString (body : string) (m : Msg) : Msg :=
  {| from := from m; to := to m; subject := subject m; bodyString := body |}.

Inductive TLSPolicy : Type := TLSMandatory | TLSOpportunistic | NoTLS.

Inductive Option : Type :=
| WithTLSPortPolicy (policy : TLSPolicy)
| WithPort (port : Z).

Record Client : Type := { host : string; port : Z; tlspolicy : TLSPolicy }.

Definition apply_option (c : Client) (opt : Option) : Client * option error :=
  match opt with
  | WithTLSPortPolicy policy =>
      ({| host := host c;
          port := match policy with NoTLS => 25 | _ => 587 end;
          tlspolicy := policy |}, None)
  | WithPort p =>
      if (p <? 1) || (65535 <? p) then (c, Some (errors_New "invalid port number"))
      else ({| host := host c; port := p; tlspolicy := tlspolicy c |}, None)
  end.

Fixpoint apply_options (c : Client) (opts : list Option) : Client * option error :=
  match opts with
  | [] => (c, None)
  | opt :: opts =>
      match apply_option c opt with
      | (c, Some err) => (c, Some err)
      | (c, None) => apply_options c opts
      end
  end.

(** [mail.NewClient(host, opts...)] *)
Definition NewClient (h : string) (opts : list Option) : Client * option error :=
  match apply_options {| host := h; port := 25; tlspolicy := TLSMandatory |} opts with
  | (c, Some err) => (c, Some err)
  | (c, None) =>
      if String.eqb (host c) "" then (c, Some (errors_New "hostname for client cannot be empty"))
      else (c, None)
  end.

(** [client.DialAndSend(msg)], against whatever carries the mail. *)
Class Transport (W : Type) : Type :=
  DialAndSend : Client -> Msg -> W -> option error * W.

(** The SMTP server: the messages it has accepted, oldest first, and, attempt
    by attempt, whether the next connection and delivery will succeed (once
    the list is used up, they all do). *)
Record Server : Type := { inbox : list Msg; dial : list bool }.

Definition deliver (m : Msg) (s : Server) : option error * Server :=
  match dial s with
  | false :: rest =>
      (Some (errors_New "dial failed: connection refused"),
       {| inbox := inbox s; dial := rest |})
  | true :: rest => (None, {| inbox := inbox s ++ [m]; dial := rest |})
  | [] => (None, {| inbox := inbox s ++ [m]; dial := [] |})
  end.

End mail.

(** ** Package [mailpit]: the notifier *)

Module mailpit.

Class store (W : Type) : Type := {
  GetTrip : uuid.UUID -> W -> (pgstore.Trip.t * option error) * W;
  GetParticipants : uuid.UUID -> W -> (list pgstore.Participant.t * option error) * W
}.

Section MailPit.
Context {W : Type} {Store : store W} {Transport : mail.Transport W}
        {Addresses : mail.AddressParser}.

Definition SendConfirmTripEmailToTripOwner (tripId : uuid.UUID) (w : W)
    : option error * W :=
  let '((trip, err), w) := GetTrip tripId w in
  match err with
  | Some err =>
      (Some (fmt_Errorf "mailpit: failed to get trip for SendConfirmTripEmailToTripOwner" err), w)
  | None =>
  let msg := mail.NewMsg in
  let '(msg, err) := mail.From "mailpit@journey.com" msg in
  match err with
  | Some err =>
      (Some (fmt_Errorf "mailpit: failed to set From in email for SendConfirmTripEmailToTripOwner" err), w)
  | None =>
  let '(msg, err) := mail.To (pgstore.Trip.OwnerEmail trip) msg in
  match err with
  | Some err =>
      (Some (fmt_Errorf "mailpit: failed to set To in email for SendConfirmTripEmailToTripOwner" err), w)
  | None =>
  let msg := mail.Subject "Confirme sua viagem" msg in
  let msg := mail.SetBodyString
    ("
    Olá, " +:+ pgstore.Trip.OwnerName trip +:+ "!
    A sua viagem para " +:+ pgstore.Trip.Destination trip
     +:+ " que começa no dia "
     +:+ time.Format_DateOnly (pgtype.Time (pgstore.Trip.StartsAt trip))
     +:+ " precisa ser confirmada.
    Clique no botão abaixo para confirmar.
    ") msg in
  let '(client, err) :=
    mail.NewClient "mailpit" [mail.WithTLSPortPolicy mail.NoTLS; mail.WithPort 1025] in
  match err with
  | Some err =>
      (Some (fmt_Errorf "mailpit: failed to create mail client for SendConfirmTripEmailToTripOwner" err), w)
  | None =>
  let '(err, w) := mail.DialAndSend client msg w in
  match err with
  | Some err =>
      (Some (fmt_Errorf "mailpit: failed to send email for SendConfirmTripEmailToTripOwner" err), w)
  | None => (None, w)
  end end end end end.

(** The [for _, participant := range participants] loop of
    [SendTripConfirmedEmails]. *)
Fixpoint SendTripConfirmedEmails_loop (client : mail.Client)
    (participants : list pgstore.Participant.t) (w : W) : option error * W :=
  match participants with
  | [] => (None, w)
  | participant :: participants =>
  let msg := mail.NewMsg in
  let '(msg, err) := mail.From "mailpit@journey.com" msg in
  match err with
  | Some err =>
      (Some (fmt_Errorf "mailpit: failed to set From in email for SendTripConfirmedEmails" err), w)
  | None =>
  let '(msg, err) := mail.To (pgstore.Participant.Email participant) msg in
  match err with
  | Some err =>
      (Some (fmt_Errorf "mailpit: failed to set To in email for SendTripConfirmedEmails" err), w)
  | None =>
  let msg := mail.Subject "Confirme sua viagem" msg in
  let msg := mail.SetBodyString "Você deve confirmar a sua viagem" msg in
  let '(err, w) := mail.DialAndSend client msg w in
  match err with
  | Some err =>
      (Some (fmt_Errorf "mailpit: failed to send email for SendTripConfirmedEmails" err), w)
  | None => SendTripConfirmedEmails_loop client participants w
  end end end
  end.

Definition SendTripConfirmedEmails (tripId : uuid.UUID) (w : W) : option error * W :=
  let '((participants, err), w) := GetParticipants tripId w in
  match err with
  | Some err =>
      (Some (fmt_Errorf "mailpit: failed to get trip participants for SendTripConfirmedEmails" err), w)
  | None =>
  let '(client, err) :=
    mail.NewClient "mailpit" [mail.WithTLSPortPolicy mail.NoTLS; mail.WithPort 1025] in
  match err with
  | Some err =>
      (Some (fmt_Errorf "mailpit: failed to create mail client for SendTripConfirmedEmails" err), w)
  | None => SendTripConfirmedEmails_loop client participants w
  end end.

End MailPit.

End mailpit.

(** ** The Go runtime: ranging over a map

    [for k, v := range m] visits the entries of a map in an order the
    language leaves open; the order is an interface of the model. *)

Module runtime.

Class MapOrder : Type :=
  range : forall {V : Type}, gmap string V -> list (string * V).

(** What every order has in common: each entry is visited once. *)
Definition fair (order : MapOrder) : Prop :=
  forall (V : Type) (m : gmap string V), @range order V m ≡ₚ map_to_list m.

End runtime.

(** ** Package [api]: the handlers *)

Module api.

Class mailer (W : Type) : Type :=
  SendConfirmTripEmailToTripOwner : uuid.UUID -> W -> option error * W.

Class store (W : Type) : Type := {
  CreateTrip : spec.CreateTripRequest.t -> W -> (uuid.UUID * option error) * W;
  GetParticipant : uuid.UUID -> W -> (pgstore.Participant.t * option error) * W;
  ConfirmParticipant : uuid.UUID -> W -> option error * W;
  GetTrip : uuid.UUID -> W -> (pgstore.Trip.t * option error) * W;
  UpdateTrip : pgstore.UpdateTripParams.t -> W -> option error * W;
  GetTripActivities : uuid.UUID -> W -> (list pgstore.Activity.t * option error) * W;
  CreateActivity : pgstore.CreateActivityParams.t -> W -> (uuid.UUID * option error) * W;
  GetTripLinks : uuid.UUID -> W -> (list pgstore.Link.t * option error) * W
}.

(** The function literals started with [go]: only [PostTrips] has one, and
    it captures [tripID]. *)
Inductive goroutine : Type :=
| PostTrips_func1 (tripID : uuid.UUID).

(** What a handler acts on: the world behind the store and the mailer (the
    database, the mail server), the entries written to the logger, the
    goroutines launched and not yet run, and the scheduler's choice: [eager]
    when a goroutine runs as soon as it is launched, otherwise it runs once
    the handler has returned. *)
Record API (W : Type) : Type := {
  world : W;
  logger : list zap.Entry;
  launched : list goroutine;
  eager : bool
}.
Arguments world {W} _.
Arguments logger {W} _.
Arguments launched {W} _.
Arguments eager {W} _.

(** A call either returns or panics. *)
Inductive outcome (A : Type) : Type :=
| Return (a : A)
| Panic (v : string).
Arguments Return {A} a.
Arguments Panic {A} v.

Definition M (W A : Type) : Type := API W -> outcome A * API W.

Definition ret {W A : Type} (a : A) : M W A := fun api => (Return a, api).

Definition bind {W A B : Type} (m : M W A) (k : A -> M W B) : M W B :=
  fun api =>
    match m api with
    | (Return a, api) => k a api
    | (Panic v, api) => (Panic v, api)
    end.

Definition panic {W A : Type} (v : string) : M W A := fun api => (Panic v, api).

(** A call into the store or the mailer. *)
Definition call {W A : Type} (op : W -> A * W) : M W A :=
  fun api =>
    let '(a, w) := op (world api) in
    (Return a, {| world := w; logger := logger api; launched := launched api;
                  eager := eager api |}).

(** [api.logger.Error(msg, fields...)] *)
Definition logger_Error {W : Type} (msg : string) (fields : list zap.Field) : M W unit :=
  fun api =>
    (Return tt,
     {| world := world api;
        logger := logger api ++ [{| zap.Message := msg; zap.Fields := fields |}];
        launched := launched api; eager := eager api |}).

#[global] Instance M_ret {W : Type} : MRet (M W) := @ret W.
#[global] Instance M_bind {W : Type} : MBind (M W) :=
  fun A B k m => bind m k.

Definition Message (msg : string) : spec.Error.t := {| spec.Error.Message := msg |}.

Section handlers.
Context {W : Type} {Store : store W} {Mailer : mailer W}.
Context {Codec : uuid.Codec} {Order : runtime.MapOrder}.
Context {DecodeCreateTrip : json.Decoder spec.CreateTripRequest.t}
        {DecodeUpdateTrip : json.Decoder spec.UpdateTripRequest.t}
        {DecodeCreateActivity : json.Decoder spec.CreateActivityRequest.t}.
Context {ValidateCreateTrip : validator.Validate spec.CreateTripRequest.t}
        {ValidateUpdateTrip : validator.Validate spec.UpdateTripRequest.t}
        {ValidateCreateActivity : validator.Validate spec.CreateActivityRequest.t}.

(** Confirms a participant on a trip.
    (PATCH /participants/{participantId}/confirm) *)
Definition PatchParticipantsParticipantIDConfirm
    (r : http.Request) (participantID : string) : M W spec.Response :=
  let '(id, err) := uuid.Parse participantID in
  match err with
  | Some _ =>
      ret (spec.PatchParticipantsParticipantIDConfirmJSON400Response
             (Message "uuid inválido"))
  | None =>
  '(participant, err) ← call (GetParticipant id);
  match err with
  | Some err =>
      if errors_Is err ErrNoRows then
        ret (spec.PatchParticipantsParticipantIDConfirmJSON400Response
               (Message "participante não encontrado"))
      else
        logger_Error "failed to get participant"
          [zap.Error err; zap.String "participant_id" participantID] ;;
        ret (spec.PatchParticipantsParticipantIDConfirmJSON400Response
               (Message "something went wrong, try again"))
  | None =>
  if pgstore.Participant.IsConfirmed participant then
    ret (spec.PatchParticipantsParticipantIDConfirmJSON400Response
           (Message "participante já confirmado"))
  else
  err ← call (ConfirmParticipant id);
  match err with
  | Some err =>
      logger_Error "failed to confirm participant"
        [zap.Error err; zap.String "participant_id" participantID] ;;
      ret (spec.PatchParticipantsParticipantIDConfirmJSON400Response
             (Message "something went wrong, try again"))
  | None =>
      ret (spec.PatchParticipantsParticipantIDConfirmJSON204Response spec.Nil)
  end end end.

(** The body of a goroutine. *)
Definition run (g : goroutine) : M W unit :=
  match g with
  | PostTrips_func1 tripID =>
      err ← call (SendConfirmTripEmailToTripOwner tripID);
      match err with
      | Some err =>
          logger_Error "failed to send email on PostTrips"
            [zap.Error err; zap.String "trip_id" (uuid.String tripID)]
      | None => ret tt
      end
  end.

(** [go func() { ... }()] *)
Definition go (g : goroutine) : M W unit :=
  fun api =>
    if eager api then run g api
    else
      (Return tt,
       {| world := world api; logger := logger api;
          launched := launched api ++ [g]; eager := eager api |}).

(** Create a new trip
    (POST /trips) *)
Definition PostTrips (r : http.Request) : M W spec.Response :=
  match json.Decode (http.Body r) with
  | inr _ => ret (spec.PostTripsJSON400Response (Message "invalid JSON"))
  | inl body =>
  match validator.Struct body with
  | Some err =>
      ret (spec.PostTripsJSON400Response (Message ("invalid input: " +:+ Error err)))
  | None =>
  '(tripID, err) ← call (CreateTrip body);
  go (PostTrips_func1 tripID) ;;
  match err with
  | Some err =>
      logger_Error "failed to create trip" [zap.Error err] ;;
      ret (spec.PostTripsJSON400Response (Message "something went wrong, try again"))
  | None =>
      ret (spec.PostTripsJSON201Response
             {| spec.CreateTripResponse.TripID := uuid.String tripID |})
  end end end.

(** Get a trip details.
    (GET /trips/{tripId}) *)
Definition GetTripsTripID (r : http.Request) (tripID : string) : M W spec.Response :=
  let '(id, err) := uuid.Parse tripID in
  match err with
  | Some err =>
      logger_Error "failed to parse trip id" [zap.Error err; zap.String "trip_id" tripID] ;;
      ret (spec.GetTripsTripIDJSON400Response (Message "invalid trip id"))
  | None =>
  '(trip, err) ← call (GetTrip id);
  match err with
  | Some err =>
      if errors_Is err ErrNoRows then
        ret (spec.GetTripsTripIDJSON400Response (Message "trip not found"))
      else
        logger_Error "failed to get trip" [zap.Error err; zap.String "trip_id" tripID] ;;
        ret (spec.GetTripsTripIDJSON400Response (Message "something went wrong, try again"))
  | None =>
      ret (spec.GetTripsTripIDJSON200Response
             {| spec.GetTripDetailsResponse.Trip :=
                  {| spec.GetTripDetailsResponseTripObj.Destination :=
                       pgstore.Trip.Destination trip;
                     spec.GetTripDetailsResponseTripObj.EndsAt :=
                       pgtype.Time (pgstore.Trip.EndsAt trip);
                     spec.GetTripDetailsResponseTripObj.ID := tripID;
                     spec.GetTripDetailsResponseTripObj.IsConfirmed :=
                       pgstore.Trip.IsConfirmed trip;
                     spec.GetTripDetailsResponseTripObj.StartsAt :=
                       pgtype.Time (pgstore.Trip.StartsAt trip) |} |})
  end end.

(** Update a trip.
    (PUT /trips/{tripId}) *)
Definition PutTripsTripID (r : http.Request) (tripID : string) : M W spec.Response :=
  let '(id, err) := uuid.Parse tripID in
  match err with
  | Some err =>
      logger_Error "failed to parse trip id" [zap.Error err; zap.String "trip_id" tripID] ;;
      ret (spec.PutTripsTripIDJSON400Response (Message "invalid trip id"))
  | None =>
  '(trip, err) ← call (GetTrip id);
  match err with
  | Some err =>
      if errors_Is err ErrNoRows then
        ret (spec.PutTripsTripIDJSON400Response (Message "trip not found"))
      else
        logger_Error "failed to get trip" [zap.Error err; zap.String "trip_id" tripID] ;;
        ret (spec.PutTripsTripIDJSON400Response (Message "something went wrong, try again"))
  | None =>
  match json.Decode (http.Body r) with
  | inr _ => ret (spec.PutTripsTripIDJSON400Response (Message "invalid JSON"))
  | inl body =>
  match validator.Struct body with
  | Some err =>
      ret (spec.PutTripsTripIDJSON400Response (Message ("invalid input: " +:+ Error err)))
  | None =>
  err ← call (UpdateTrip
    {| pgstore.UpdateTripParams.ID := id;
       pgstore.UpdateTripParams.Destination := spec.UpdateTripRequest.Destination body;
       pgstore.UpdateTripParams.StartsAt :=
         {| pgtype.Time := spec.UpdateTripRequest.StartsAt body; pgtype.Valid := true |};
       pgstore.UpdateTripParams.EndsAt :=
         {| pgtype.Time := spec.UpdateTripRequest.EndsAt body; pgtype.Valid := true |};
       pgstore.UpdateTripParams.IsConfirmed := pgstore.Trip.IsConfirmed trip |});
  match err with
  | Some err =>
      logger_Error "failed to update trip" [zap.Error err] ;;
      ret (spec.PutTripsTripIDJSON400Response (Message "something went wrong, try again"))
  | None => ret (spec.PutTripsTripIDJSON204Response spec.Nil)
  end end end end end.

(** The first loop of [GetTripsTripIDActivities]: the activities, grouped
    under the date text of their [OccursAt]. *)
Definition groupedActivities (activities : list pgstore.Activity.t)
    : gmap string (list pgstore.Activity.t) :=
  fold_left
    (fun grouped activity =>
       let date := time.Format_DateOnly (pgtype.Time (pgstore.Activity.OccursAt activity)) in
       <[date := default [] (grouped !! date) ++ [activity]]> grouped)
    activities ∅.

(** The inner loop: the response entries of the activities of one date. *)
Definition innerActs (actsOnDate : list pgstore.Activity.t)
    : list spec.GetTripActivitiesResponseInnerArray.t :=
  (fun act =>
     {| spec.GetTripActivitiesResponseInnerArray.ID :=
          uuid.String (pgstore.Activity.ID act);
        spec.GetTripActivitiesResponseInnerArray.Title := pgstore.Activity.Title act;
        spec.GetTripActivitiesResponseInnerArray.OccursAt :=
          pgtype.Time (pgstore.Activity.OccursAt act) |}) <$> actsOnDate.

(** The second loop: one entry of the response for each entry of the map,
    in the order of the range, dated by parsing the date text back. *)
Definition outputActivities (groupedActivities : gmap string (list pgstore.Activity.t))
    : list spec.GetTripActivitiesResponseOuterArray.t :=
  (fun '(dateStr, actsOnDate) =>
     let '(date, _) := time.Parse_DateOnly dateStr in
     {| spec.GetTripActivitiesResponseOuterArray.Date := date;
        spec.GetTripActivitiesResponseOuterArray.Activities := innerActs actsOnDate |})
  <$> runtime.range groupedActivities.

(** Get a trip activities.
    (GET /trips/{tripId}/activities) *)
Definition GetTripsTripIDActivities (r : http.Request) (tripID : string)
    : M W spec.Response :=
  let '(id, err) := uuid.Parse tripID in
  match err with
  | Some err =>
      logger_Error "failed to parse trip id" [zap.Error err; zap.String "trip_id" tripID] ;;
      ret (spec.GetTripsTripIDActivitiesJSON400Response (Message "invalid trip id"))
  | None =>
  '(activities, err) ← call (GetTripActivities id);
  match err with
  | Some err =>
      logger_Error "failed to get trip activities"
        [zap.Error err; zap.String "trip_id" tripID] ;;
      if errors_Is err ErrNoRows then
        ret (spec.GetTripsTripIDActivitiesJSON400Response (Message "trip not found"))
      else
        ret (spec.GetTripsTripIDActivitiesJSON400Response
               (Message "something went wrong, try again"))
  | None =>
  let output :=
    {| spec.GetTripActivitiesResponse.Activities :=
         outputActivities (groupedActivities activities) |} in
  ret (spec.GetTripsTripIDActivitiesJSON200Response output)
  end end.

(** Create a trip activity.
    (POST /trips/{tripId}/activities) *)
Definition PostTripsTripIDActivities (r : http.Request) (tripID : string)
    : M W spec.Response :=
  let '(id, err) := uuid.Parse tripID in
  match err with
  | Some err =>
      logger_Error "failed to parse trip id" [zap.Error err; zap.String "trip_id" tripID] ;;
      ret (spec.PostTripsTripIDActivitiesJSON400Response (Message "invalid trip id"))
  | None =>
  match json.Decode (http.Body r) with
  | inr _ => ret (spec.PostTripsTripIDActivitiesJSON400Response (Message "invalid JSON"))
  | inl body =>
  match validator.Struct body with
  | Some err =>
      ret (spec.PostTripsTripIDActivitiesJSON400Response
             (Message ("invalid input: " +:+ Error err)))
  | None =>
  '(activityID, err) ← call (CreateActivity
    {| pgstore.CreateActivityParams.TripID := id;
       pgstore.CreateActivityParams.Title := spec.CreateActivityRequest.Title body;
       pgstore.CreateActivityParams.OccursAt :=
         {| pgtype.Time := spec.CreateActivityRequest.OccursAt body;
            pgtype.Valid := true |} |});
  match err with
  | Some err =>
      if errors_Is err ErrNoRows then
        ret (spec.PostTripsTripIDActivitiesJSON400Response (Message "trip not found"))
      else
        logger_Error "failed to create activity" [zap.Error err] ;;
        ret (spec.PostTripsTripIDActivitiesJSON400Response
               (Message "something went wrong, try again"))
  | None =>
      ret (spec.PostTripsTripIDActivitiesJSON201Response
             {| spec.CreateActivityResponse.ActivityID := uuid.String activityID |})
  end end end end.

(** Confirm a trip and send e-mail invitations.
    (GET /trips/{tripId}/confirm) *)
Definition GetTripsTripIDConfirm (r : http.Request) (tripID : string)
    : M W spec.Response :=
  panic "not implemented".

(** Invite someone to the trip.
    (POST /trips/{tripId}/invites) *)
Definition PostTripsTripIDInvites (r : http.Request) (tripID : string)
    : M W spec.Response :=
  panic "not implemented".

(** Get a trip links.
    (GET /trips/{tripId}/links) *)
Definition GetTripsTripIDLinks (r : http.Request) (tripID : string)
    : M W spec.Response :=
  let '(id, err) := uuid.Parse tripID in
  match err with
  | Some _ => ret (spec.GetTripsTripIDLinksJSON400Response (Message "invalid trip id"))
  | None =>
  '(links, err) ← call (GetTripLinks id);
  match err with
  | Some err =>
      if errors_Is err ErrNoRows then
        ret (spec.GetTripsTripIDLinksJSON400Response (Message "trip not found"))
      else
        logger_Error "failed to get trip links"
          [zap.Error err; zap.String "trip_id" tripID] ;;
        ret (spec.GetTripsTripIDLinksJSON400Response
               (Message "something went wrong, try again"))
  | None =>
  let output :=
    {| spec.GetLinksResponse.Links :=
         (fun link =>
            {| spec.GetLinksResponseArray.ID := uuid.String (pgstore.Link.ID link);
               spec.GetLinksResponseArray.Title := pgstore.Link.Title link;
               spec.GetLinksResponseArray.URL := pgstore.Link.Url link |})
         <$> links |} in
  ret (spec.GetTripsTripIDLinksJSON200Response output)
  end end.

(** Create a trip link.
    (POST /trips/{tripId}/links) *)
Definition PostTripsTripIDLinks (r : http.Request) (tripID : string)
    : M W spec.Response :=
  panic "not implemented".

(** Get a trip participants.
    (GET /trips/{tripId}/participants) *)
Definition GetTripsTripIDParticipants (r : http.Request) (tripID : string)
    : M W spec.Response :=
  panic "not implemented".

(** The launched goroutines run detached from the handler that started
    them: here, after it has returned, oldest first. *)
Fixpoint run_all (gs : list goroutine) (api : API W) : API W :=
  match gs with
  | [] => api
  | g :: gs => run_all gs (snd (run g api))
  end.

Definition settle (api : API W) : API W :=
  run_all (launched api)
    {| world := world api; logger := logger api; launched := [];
       eager := eager api |}.

(** A request served to the end: the handler's outcome, and the state once
    the goroutines it launched have finished. *)
Definition serve (handler : M W spec.Response) (api : API W)
    : outcome spec.Response * API W :=
  let '(response, api) := handler api in (response, settle api).

End handlers.

End api.

(** ** The program as wired by [NewAPI] and [NewMailPit]: one database behind
    both stores, one mail server behind the notifier *)

Module journey.

Record World : Type := { db : pgstore.DB; server : mail.Server }.

Definition query {A : Type} (q : pgstore.DB -> A * pgstore.DB) (w : World) : A * World :=
  let '(a, d) := q (db w) in (a, {| db := d; server := server w |}).

#[global] Instance api_store : api.store World := {|
  api.CreateTrip body := query (pgstore.CreateTrip body);
  api.GetParticipant id := query (pgstore.GetParticipant id);
  api.ConfirmParticipant id := query (pgstore.ConfirmParticipant id);
  api.GetTrip id := query (pgstore.GetTrip id);
  api.UpdateTrip arg := query (pgstore.UpdateTrip arg);
  api.GetTripActivities id := query (pgstore.GetTripActivities id);
  api.CreateActivity arg := query (pgstore.CreateActivity arg);
  api.GetTripLinks id := query (pgstore.GetTripLinks id)
|}.

#[global] Instance mailpit_store : mailpit.store World := {|
  mailpit.GetTrip id := query (pgstore.GetTrip id);
  mailpit.GetParticipants id := query (pgstore.GetParticipants id)
|}.

#[global] Instance transport : mail.Transport World :=
  fun client msg w =>
    let '(err, srv) := mail.deliver msg (server w) in
    (err, {| db := db w; server := srv |}).

#[global] Instance MailPit `{!mail.AddressParser} : api.mailer World :=
  mailpit.SendConfirmTripEmailToTripOwner.

(** The state of a freshly started program over a database and a server. *)
Definition start (eager : bool) (d : pgstore.DB) (srv : mail.Server) : api.API World :=
  {| api.world := {| db := d; server := srv |}; api.logger := [];
     api.launched := []; api.eager := eager |}.

End journey.

(** ** Test doubles and sample data *)

Module fixture.

(** A codec for the canonical form [xxxxxxxx-xxxx-xxxx-xxxx-xxxxxxxxxxxx]:
    what [String] prints, and the first of the forms [Parse] reads. *)
Definition hexdigit (d : N) : ascii :=
  nth (N.to_nat d) (list_ascii_of_string "0123456789abcdef") "0"%char.

Fixpoint hex (n : nat) (u : N) : list ascii :=
  match n with
  | O => []
  | S n => hex n (u / 16)%N ++ [hexdigit (u mod 16)%N]
  end.

Definition canonical (u : N) : string :=
  let h := hex 32 u in
  string_of_list_ascii
    (take 8 h ++ ["-"%char] ++ take 4 (drop 8 h) ++ ["-"%char]
     ++ take 4 (drop 12 h) ++ ["-"%char] ++ take 4 (drop 16 h) ++ ["-"%char]
     ++ drop 20 h).

Definition xvalue (c : ascii) : option N :=
  let n := N_of_ascii c in
  if (48 <=? n)%N && (n <=? 57)%N then Some (n - 48)%N
  else if (97 <=? n)%N && (n <=? 102)%N then Some (n - 87)%N
  else if (65 <=? n)%N && (n <=? 70)%N then Some (n - 55)%N
  else None.

Fixpoint unhex (l : list ascii) (acc : N) : option N :=
  match l with
  | [] => Some acc
  | c :: l =>
      match xvalue c with
      | Some d => unhex l (16 * acc + d)%N
      | None => None
      end
  end.

Definition is_dash (l : list ascii) (i : nat) : bool :=
  match l !! i with
  | Some c => Ascii.eqb c "-"
  | None => false
  end.

Definition parse (s : string) : N * option error :=
  let l := list_ascii_of_string s in
  if (length l =? 36)%nat then
    if is_dash l 8 && is_dash l 13 && is_dash l 18 && is_dash l 23 then
      match unhex (take 8 l ++ take 4 (drop 9 l) ++ take 4 (drop 14 l)
                   ++ take 4 (drop 19 l) ++ drop 24 l) 0%N with
      | Some u => (u, None)
      | None => (uuid.Nil, Some (errors_New "invalid UUID format"))
      end
    else (uuid.Nil, Some (errors_New "invalid UUID format"))
  else (uuid.Nil, Some (errors_New "invalid UUID length")).

#[global] Instance codec : uuid.Codec := {| uuid.Parse := parse; uuid.String := canonical |}.

(** The order in which the entries of a map come out of [map_to_list]. *)
#[global] Instance order : runtime.MapOrder := fun V m => map_to_list m.

(** An address parser that asks for an at sign. *)
#[global] Instance addresses : mail.AddressParser :=
  fun addr =>
    if existsb (Ascii.eqb "@") (list_ascii_of_string addr) then None
    else Some (errors_New "mail: missing '@' or angle-addr").

(** Modelled from the spec: validation asks for the required fields to be
    present. *)
Definition required (field value : string) : option error :=
  if String.eqb value "" then
    Some (errors_New ("Field validation for '" +:+ field +:+ "' failed on the 'required' tag"))
  else None.

Definition first_error (checks : list (option error)) : option error :=
  match omap id checks with
  | [] => None
  | err :: _ => Some err
  end.

#[global] Instance validate_CreateTripRequest
    : validator.Validate spec.CreateTripRequest.t :=
  fun body =>
    first_error
      [required "Destination" (spec.CreateTripRequest.Destination body);
       required "OwnerEmail" (spec.CreateTripRequest.OwnerEmail body);
       required "OwnerName" (spec.CreateTripRequest.OwnerName body)].

#[global] Instance validate_UpdateTripRequest
    : validator.Validate spec.UpdateTripRequest.t :=
  fun body => required "Destination" (spec.UpdateTripRequest.Destination body).

#[global] Instance validate_CreateActivityRequest
    : validator.Validate spec.CreateActivityRequest.t :=
  fun body => required "Title" (spec.CreateActivityRequest.Title body).

(** Sample requests.  The decoders are tables from the name of a sample
    document to its decoded value; any other body is malformed. *)
Definition paris : spec.CreateTripRequest.t :=
  {| spec.CreateTripRequest.Destination := "Paris";
     spec.CreateTripRequest.EmailsToInvite := ["b@x.com"; "c@x.com"];
     spec.CreateTripRequest.EndsAt := time.Date 2025 6 10 0 0 0 0;
     spec.CreateTripRequest.OwnerEmail := "a@x.com";
     spec.CreateTripRequest.OwnerName := "A";
     spec.CreateTripRequest.StartsAt := time.Date 2025 6 1 0 0 0 0 |}.

Definition lyon : spec.UpdateTripRequest.t :=
  {| spec.UpdateTripRequest.Destination := "Lyon";
     spec.UpdateTripRequest.EndsAt := time.Date 2025 7 12 0 0 0 0;
     spec.UpdateTripRequest.StartsAt := time.Date 2025 7 2 0 0 0 0 |}.

Definition louvre : spec.CreateActivityRequest.t :=
  {| spec.CreateActivityRequest.OccursAt := time.Date 2025 6 2 10 0 0 0;
     spec.CreateActivityRequest.Title := "Louvre" |}.

Definition malformed : error := errors_New "unexpected end of JSON input".

#[global] Instance decode_CreateTripRequest : json.Decoder spec.CreateTripRequest.t :=
  fun body => if String.eqb body "paris.json" then inl paris else inr malformed.

#[global] Instance decode_UpdateTripRequest : json.Decoder spec.UpdateTripRequest.t :=
  fun body => if String.eqb body "lyon.json" then inl lyon else inr malformed.

#[global] Instance decode_CreateActivityRequest
    : json.Decoder spec.CreateActivityRequest.t :=
  fun body => if String.eqb body "louvre.json" then inl louvre else inr malformed.

Definition request (body : string) : http.Request := {| http.Body := body |}.

End fixture.

(** ** Vocabulary of the statements *)

(** The database behind a state of the wired program. *)
Definition database (a : api.API journey.World) : pgstore.DB :=
  journey.db (api.world a).

(** The mail server behind it. *)
Definition mailserver (a : api.API journey.World) : mail.Server :=
  journey.server (api.world a).

(** A failure response of the participant confirmation, with its message. *)
Definition confirm_failure (msg : string) : spec.Response :=
  {| spec.body := spec.OfError {| spec.Error.Message := msg |}; spec.Code := 400 |}.

(** The entry [PostTrips]'s goroutine logs when the mailer returns an error,
    and none when it returns nil. *)
Definition email_entries `{!uuid.Codec} (tripID : uuid.UUID) (err : option error)
    : list zap.Entry :=
  match err with
  | Some err =>
      [{| zap.Message := "failed to send email on PostTrips";
          zap.Fields := [zap.Error err; zap.String "trip_id" (uuid.String tripID)] |}]
  | None => []
  end.

(** The entry [PostTrips] itself logs when the store's CreateTrip returns an
    error. *)
Definition create_entries (err : option error) : list zap.Entry :=
  match err with
  | Some err =>
      [{| zap.Message := "failed to create trip"; zap.Fields := [zap.Error err] |}]
  | None => []
  end.

(** What [PostTrips] answers to a request that decodes and validates, from
    what the store's CreateTrip returned. *)
Definition PostTrips_response `{!uuid.Codec} (tripID : uuid.UUID) (err : option error)
    : spec.Response :=
  match err with
  | Some _ =>
      {| spec.body := spec.OfError {| spec.Error.Message := "something went wrong, try again" |};
         spec.Code := 400 |}
  | None =>
      {| spec.body :=
           spec.OfCreateTripResponse {| spec.CreateTripResponse.TripID := uuid.String tripID |};
         spec.Code := 201 |}
  end.

(** The answer of [PostTrips], as a function of the request and of the store
    alone. *)
Definition PostTrips_answer {W : Type} `{!api.store W, !uuid.Codec}
    `{!json.Decoder spec.CreateTripRequest.t,
      !validator.Validate spec.CreateTripRequest.t}
    (r : http.Request) (w : W) : spec.Response :=
  match json.Decode (http.Body r) with
  | inr _ =>
      {| spec.body := spec.OfError {| spec.Error.Message := "invalid JSON" |};
         spec.Code := 400 |}
  | inl body =>
      match validator.Struct body with
      | Some err =>
          {| spec.body :=
               spec.OfError {| spec.Error.Message := "invalid input: " +:+ Error err |};
             spec.Code := 400 |}
      | None =>
          let '((tripID, err), _) := api.CreateTrip body w in
          PostTrips_response tripID err
      end
  end.

(** Two databases with the same rows and the same availability: they may
    differ in the statement log only. *)
Definition same_tables (d1 d2 : pgstore.DB) : Prop :=
  pgstore.trips d1 = pgstore.trips d2
  /\ pgstore.participants d1 = pgstore.participants d2
  /\ pgstore.activities d1 = pgstore.activities d2
  /\ pgstore.links d1 = pgstore.links d2
  /\ pgstore.reachable d1 = pgstore.reachable d2.

(** The message [SendTripConfirmedEmails] builds for a participant. *)
Definition confirmation_for (p : pgstore.Participant.t) : mail.Msg :=
  {| mail.from := "mailpit@journey.com";
     mail.to := [pgstore.Participant.Email p];
     mail.subject := "Confirme sua viagem";
     mail.bodyString := "Você deve confirmar a sua viagem" |}.

(** Whether the send for the participant at position [i] of the list goes
    through: the sender's address and the participant's are accepted, and
    the connection attempt with that number, counted from now, succeeds. *)
Definition send_succeeds `{!mail.AddressParser} (dial : list bool) (i : nat)
    (p : pgstore.Participant.t) : bool :=
  match mail.ParseAddress "mailpit@journey.com",
        mail.ParseAddress (pgstore.Participant.Email p) with
  | None, None => nth i dial true
  | _, _ => false
  end.

(** A handler that returns, with one of the given status codes. *)
Definition answers {W : Type} (codes : list Z) (handler : api.M W spec.Response)
    (a : api.API W) : Prop :=
  exists resp : spec.Response,
    fst (handler a) = api.Return resp /\ spec.Code resp ∈ codes.


(** A handler that answers 400 with the given message, leaving the world
    and the goroutines as they were (it may have logged). *)
Definition rejects {W : Type} (msg : string) (handler : api.M W spec.Response)
    (a : api.API W) : Prop :=
  fst (handler a)
  = api.Return
      {| spec.body := spec.OfError {| spec.Error.Message := msg |}; spec.Code := 400 |}
  /\ api.world (snd (handler a)) = api.world a
  /\ api.launched (snd (handler a)) = api.launched a.

(** The fixed texts of the error responses. *)
Definition fixed_messages : list string :=
  ["uuid inválido"; "participante não encontrado"; "participante já confirmado";
   "something went wrong, try again"; "invalid JSON"; "invalid trip id";
   "trip not found"].

(** The message of a response, when it is an error response. *)
Definition error_message (resp : spec.Response) : option string :=
  match spec.body resp with
  | spec.OfError e => Some (spec.Error.Message e)
  | _ => None
  end.

(** What the validator holds against the body of a request: its error, if
    the body decodes and does not pass. *)
Definition validation (A : Type) `{!json.Decoder A, !validator.Validate A}
    (r : http.Request) : list error :=
  match json.Decode (A := A) (http.Body r) with
  | inl body =>
      match validator.Struct body with
      | Some err => [err]
      | None => []
      end
  | inr _ => []
  end.

(** A handler whose error responses carry one of the fixed texts, or the
    validator's own account of the request: never the text of an error of the
    store or of the mailer. *)
Definition error_texts_fixed {W : Type} (invalid : list error)
    (handler : api.M W spec.Response) (a : api.API W) : Prop :=
  forall (resp : spec.Response) (msg : string),
    fst (handler a) = api.Return resp ->
    error_message resp = Some msg ->
    msg ∈ fixed_messages
    \/ exists e : error, e ∈ invalid /\ msg = "invalid input: " +:+ Error e.

(** The response of a handler that returned. *)
Definition returned {A : Type} (out : api.outcome A) : option A :=
  match out with
  | api.Return a => Some a
  | api.Panic _ => None
  end.

(** The parameters [PutTripsTripID] hands to the store's UpdateTrip. *)
Definition update_of (id : uuid.UUID) (body : spec.UpdateTripRequest.t)
    (trip : pgstore.Trip.t) : pgstore.UpdateTripParams.t :=
  {| pgstore.UpdateTripParams.ID := id;
     pgstore.UpdateTripParams.Destination := spec.UpdateTripRequest.Destination body;
     pgstore.UpdateTripParams.StartsAt :=
       {| pgtype.Time := spec.UpdateTripRequest.StartsAt body; pgtype.Valid := true |};
     pgstore.UpdateTripParams.EndsAt :=
       {| pgtype.Time := spec.UpdateTripRequest.EndsAt body; pgtype.Valid := true |};
     pgstore.UpdateTripParams.IsConfirmed := pgstore.Trip.IsConfirmed trip |}.

(** The parameters [PostTripsTripIDActivities] hands to the store's
    CreateActivity. *)
Definition activity_of (id : uuid.UUID) (body : spec.CreateActivityRequest.t)
    : pgstore.CreateActivityParams.t :=
  {| pgstore.CreateActivityParams.TripID := id;
     pgstore.CreateActivityParams.Title := spec.CreateActivityRequest.Title body;
     pgstore.CreateActivityParams.OccursAt :=
       {| pgtype.Time := spec.CreateActivityRequest.OccursAt body;
          pgtype.Valid := true |} |}.

(** The entry of the activities response for a stored activity: the text
    of its ID, its title and the time at which it occurs. *)
Definition activity_entry `{!uuid.Codec} (act : pgstore.Activity.t)
    : spec.GetTripActivitiesResponseInnerArray.t :=
  {| spec.GetTripActivitiesResponseInnerArray.ID := uuid.String (pgstore.Activity.ID act);
     spec.GetTripActivitiesResponseInnerArray.Title := pgstore.Activity.Title act;
     spec.GetTripActivitiesResponseInnerArray.OccursAt :=
       pgtype.Time (pgstore.Activity.OccursAt act) |}.

(** The entry of the links response for a stored link. *)
Definition link_entry `{!uuid.Codec} (link : pgstore.Link.t) : spec.GetLinksResponseArray.t :=
  {| spec.GetLinksResponseArray.ID := uuid.String (pgstore.Link.ID link);
     spec.GetLinksResponseArray.Title := pgstore.Link.Title link;
     spec.GetLinksResponseArray.URL := pgstore.Link.Url link |}.

(** The client both notifier functions create. *)
Definition mailpit_client : mail.Client :=
  {| mail.host := "mailpit"; mail.port := 1025; mail.tlspolicy := mail.NoTLS |}.

(** The message [SendConfirmTripEmailToTripOwner] builds for a trip. *)
Definition owner_message (trip : pgstore.Trip.t) : mail.Msg :=
  {| mail.from := "mailpit@journey.com";
     mail.to := [pgstore.Trip.OwnerEmail trip];
     mail.subject := "Confirme sua viagem";
     mail.bodyString :=
       "
    Olá, " +:+ pgstore.Trip.OwnerName trip +:+ "!
    A sua viagem para " +:+ pgstore.Trip.Destination trip
       +:+ " que começa no dia "
       +:+ time.Format_DateOnly (pgtype.Time (pgstore.Trip.StartsAt trip))
       +:+ " precisa ser confirmada.
    Clique no botão abaixo para confirmar.
    " |}.

Module sample.

Definition bob : pgstore.Participant.t :=
  {| pgstore.Participant.ID := 7%N; pgstore.Participant.TripID := 1%N;
     pgstore.Participant.Email := "b@x.com";
     pgstore.Participant.IsConfirmed := false |}.

Definition trip (isConfirmed : bool) : pgstore.Trip.t :=
  {| pgstore.Trip.ID := 1%N; pgstore.Trip.Destination := "Paris";
     pgstore.Trip.OwnerEmail := "a@x.com"; pgstore.Trip.OwnerName := "A";
     pgstore.Trip.IsConfirmed := isConfirmed;
     pgstore.Trip.StartsAt :=
       {| pgtype.Time := time.Date 2025 6 1 0 0 0 0; pgtype.Valid := true |};
     pgstore.Trip.EndsAt :=
       {| pgtype.Time := time.Date 2025 6 10 0 0 0 0; pgtype.Valid := true |} |}.

Definition guest (id : uuid.UUID) (email : string) : pgstore.Participant.t :=
  {| pgstore.Participant.ID := id; pgstore.Participant.TripID := 1%N;
     pgstore.Participant.Email := email;
     pgstore.Participant.IsConfirmed := false |}.

(** The confirmed trip with three invited participants. *)
Definition invited : pgstore.DB :=
  {| pgstore.trips := {[ 1%N := trip true ]};
     pgstore.participants :=
       {[ 7%N := bob; 8%N := guest 8%N "c@x.com"; 9%N := guest 9%N "d@x.com" ]};
     pgstore.activities := ∅; pgstore.links := ∅;
     pgstore.reachable := true; pgstore.executed := [] |}.

(** A database with one trip and one invited participant. *)
Definition db (isConfirmed : bool) : pgstore.DB :=
  {| pgstore.trips := {[ 1%N := trip isConfirmed ]};
     pgstore.participants := {[ 7%N := bob ]};
     pgstore.activities := ∅; pgstore.links := ∅;
     pgstore.reachable := true; pgstore.executed := [] |}.

(** The same database, out of reach. *)
Definition offline : pgstore.DB :=
  {| pgstore.trips := {[ 1%N := trip false ]};
     pgstore.participants := {[ 7%N := bob ]};
     pgstore.activities := ∅; pgstore.links := ∅;
     pgstore.reachable := false; pgstore.executed := [] |}.

Definition activity (id : uuid.UUID) (title : string) (occursAt : time.Time)
    : pgstore.Activity.t :=
  {| pgstore.Activity.ID := id; pgstore.Activity.TripID := 1%N;
     pgstore.Activity.Title := title;
     pgstore.Activity.OccursAt := {| pgtype.Time := occursAt; pgtype.Valid := true |} |}.

Definition louvre : pgstore.Activity.t :=
  activity 11%N "Louvre" (time.Date 2025 6 2 10 0 0 0).
Definition dinner : pgstore.Activity.t :=
  activity 12%N "Dinner" (time.Date 2025 6 2 20 30 0 0).
Definition versailles : pgstore.Activity.t :=
  activity 13%N "Versailles" (time.Date 2025 6 3 9 0 0 0).

(** The three activities, in the order in which the store returns them. *)
Definition plans : list pgstore.Activity.t := [dinner; versailles; louvre].

(** The trip with three activities, two of them on the same day. *)
Definition planned : pgstore.DB :=
  {| pgstore.trips := {[ 1%N := trip true ]};
     pgstore.participants := {[ 7%N := bob ]};
     pgstore.activities := {[ 11%N := louvre; 12%N := dinner; 13%N := versailles ]};
     pgstore.links := ∅;
     pgstore.reachable := true; pgstore.executed := [] |}.

Definition link (id : uuid.UUID) (title url : string) : pgstore.Link.t :=
  {| pgstore.Link.ID := id; pgstore.Link.TripID := 1%N;
     pgstore.Link.Title := title; pgstore.Link.Url := url |}.

(** The links of the trip, in the order in which the store returns them. *)
Definition bookmarks : list pgstore.Link.t :=
  [link 22%N "Hotel" "https://hotel.example"; link 21%N "Tickets" "https://rail.example"].

(** The trip with two links. *)
Definition linked : pgstore.DB :=
  {| pgstore.trips := {[ 1%N := trip true ]};
     pgstore.participants := {[ 7%N := bob ]};
     pgstore.activities := ∅;
     pgstore.links :=
       {[ 21%N := link 21%N "Tickets" "https://rail.example";
          22%N := link 22%N "Hotel" "https://hotel.example" ]};
     pgstore.reachable := true; pgstore.executed := [] |}.

Definition quiet : mail.Server := {| mail.inbox := []; mail.dial := [] |}.

Definition bob_id : string := "00000000-0000-0000-0000-000000000007".
Definition trip_id : string := "00000000-0000-0000-0000-000000000001".
Definition nobody_id : string := "00000000-0000-0000-0000-000000000009".

End sample.

(** * Properties *)

(** ** The models at work *)

Example Format_DateOnly_pads :
  time.Format_DateOnly (time.Date 2025 6 1 13 30 0 0) = "2025-06-01"
  /\ time.Format_DateOnly (time.Date 987 11 30 0 0 0 0) = "0987-11-30"
  /\ time.Format_DateOnly (time.Date 12345 1 2 0 0 0 0) = "12345-01-02"
  /\ time.Format_DateOnly (time.Date (-44) 3 15 0 0 0 0) = "-0044-03-15".
Proof. repeat split. Qed.

Example Parse_DateOnly_reads :
  time.Parse_DateOnly "2025-06-01" = (time.Date 2025 6 1 0 0 0 0, None)
  /\ fst (time.Parse_DateOnly "2025-02-30") = time.zero
  /\ fst (time.Parse_DateOnly "2025-6-1") = time.zero
  /\ time.Parse_DateOnly "2024-02-29" = (time.Date 2024 2 29 0 0 0 0, None).
Proof. repeat split. Qed.

Example errors_Is_unwraps :
  errors_Is (fmt_Errorf "pgstore: failed to get trip" ErrNoRows) ErrNoRows = true
  /\ errors_Is pgstore.foreign_key_violation ErrNoRows = false
  /\ errors_Is pgstore.unavailable ErrNoRows = false.
Proof. repeat split. Qed.

Example uuid_text :
  uuid.String 255%N = "00000000-0000-0000-0000-0000000000ff"
  /\ uuid.Parse "00000000-0000-0000-0000-0000000000FF" = (255%N, None)
  /\ snd (uuid.Parse "not-a-uuid") = Some (errors_New "invalid UUID length").
Proof. repeat split. Qed.

(** ** Confirming a participant *)

Section ConfirmParticipant.
Context {Codec : uuid.Codec}.

Local Abbreviation confirm :=
  (api.PatchParticipantsParticipantIDConfirm (W := journey.World)).

(** The handler on a participant who is already confirmed: the rejection,
    after the lookup and nothing else. *)
Lemma confirm_already (r : http.Request) (participantID : string) (id : uuid.UUID)
    (participant : pgstore.Participant.t) (a : api.API journey.World) :
  uuid.Parse participantID = (id, None) ->
  pgstore.reachable (database a) = true ->
  pgstore.participants (database a) !! id = Some participant ->
  pgstore.Participant.IsConfirmed participant = true ->
  confirm r participantID a =
    (api.Return (confirm_failure "participante já confirmado"),
     {| api.world :=
          {| journey.db := pgstore.record (pgstore.ExecGetParticipant id) (database a);
             journey.server := mailserver a |};
        api.logger := api.logger a; api.launched := api.launched a;
        api.eager := api.eager a |}).
Proof.
  intros Hparse Hreach Hlook Hconf.
  unfold api.PatchParticipantsParticipantIDConfirm, database in *.
  rewrite Hparse.
  unfold mbind, api.M_bind, api.bind, api.call; cbn [api.GetParticipant journey.api_store].
  unfold journey.query, pgstore.GetParticipant.
  rewrite Hreach, Hlook, Hconf. reflexivity.
Qed.

(** The handler on a participant who is not confirmed yet: the lookup, then
    the update, then 204. *)
Lemma confirm_first (r : http.Request) (participantID : string) (id : uuid.UUID)
    (participant : pgstore.Participant.t) (a : api.API journey.World) :
  uuid.Parse participantID = (id, None) ->
  pgstore.reachable (database a) = true ->
  pgstore.participants (database a) !! id = Some participant ->
  pgstore.Participant.IsConfirmed participant = false ->
  confirm r participantID a =
    (api.Return (spec.PatchParticipantsParticipantIDConfirmJSON204Response spec.Nil),
     {| api.world :=
          {| journey.db :=
               pgstore.record (pgstore.ExecConfirmParticipant id)
                 (pgstore.with_participants (alter pgstore.confirmed id)
                    (pgstore.record (pgstore.ExecGetParticipant id) (database a)));
             journey.server := mailserver a |};
        api.logger := api.logger a; api.launched := api.launched a;
        api.eager := api.eager a |}).
Proof.
  intros Hparse Hreach Hlook Hconf.
  unfold api.PatchParticipantsParticipantIDConfirm, database in *.
  rewrite Hparse.
  unfold mbind, api.M_bind, api.bind, api.call;
    cbn [api.GetParticipant api.ConfirmParticipant journey.api_store].
  unfold journey.query, pgstore.GetParticipant.
  rewrite Hreach, Hlook, Hconf.
  cbn [api.world journey.db journey.server].
  unfold pgstore.ConfirmParticipant. cbn [pgstore.reachable pgstore.record].
  rewrite Hreach. reflexivity.
Qed.

(** C1. Two calls of ConfirmParticipant on the ID of a participant: the
    second call fails with "already confirmed" (not with "not found", not
    with a success); is-confirmed is true after the first call and stays so;
    the first call succeeds exactly when the participant was not confirmed,
    so at most one of the two calls succeeds; and the update is executed only
    after the lookup has shown an unconfirmed participant: a call on a
    confirmed participant executes the lookup alone. *)
Theorem ConfirmParticipant_twice (r1 r2 : http.Request) (participantID : string)
    (id : uuid.UUID) (participant : pgstore.Participant.t)
    (a0 : api.API journey.World) :
  uuid.Parse participantID = (id, None) ->
  pgstore.reachable (database a0) = true ->
  pgstore.participants (database a0) !! id = Some participant ->
  let '(out1, a1) := confirm r1 participantID a0 in
  let '(out2, a2) := confirm r2 participantID a1 in
  out2 = api.Return (confirm_failure "participante já confirmado")
  /\ pgstore.Participant.IsConfirmed <$> pgstore.participants (database a1) !! id
     = Some true
  /\ pgstore.participants (database a2) = pgstore.participants (database a1)
  /\ (out1 = api.Return (spec.PatchParticipantsParticipantIDConfirmJSON204Response spec.Nil)
      <-> pgstore.Participant.IsConfirmed participant = false)
  /\ (out1 = api.Return (confirm_failure "participante já confirmado")
      <-> pgstore.Participant.IsConfirmed participant = true)
  /\ pgstore.executed (database a1)
     = pgstore.executed (database a0)
       ++ pgstore.ExecGetParticipant id
          :: (if pgstore.Participant.IsConfirmed participant then []
              else [pgstore.ExecConfirmParticipant id])
  /\ pgstore.executed (database a2)
     = pgstore.executed (database a1) ++ [pgstore.ExecGetParticipant id].
Proof.
  intros Hparse Hreach Hlook.
  destruct (pgstore.Participant.IsConfirmed participant) eqn:Hconf.
  - rewrite (confirm_already r1 _ id participant) by assumption.
    rewrite (confirm_already r2 _ id participant) by assumption.
    unfold database; cbn [api.world journey.db pgstore.record pgstore.participants
                            pgstore.executed].
    fold (database a0). rewrite Hlook; cbn [fmap option_fmap option_map].
    rewrite Hconf. repeat split; try reflexivity; try discriminate.
  - rewrite (confirm_first r1 _ id participant) by assumption.
    set (a1 := {| api.world := _ |}).
    assert (Hlook1 : pgstore.participants (database a1) !! id
                     = Some (pgstore.confirmed participant)).
    { unfold a1, database; cbn [api.world journey.db pgstore.record
        pgstore.with_participants pgstore.participants].
      fold (database a0). rewrite lookup_alter_eq, Hlook. reflexivity. }
    rewrite (confirm_already r2 _ id (pgstore.confirmed participant));
      [ | assumption | exact Hreach | exact Hlook1 | reflexivity ].
    rewrite Hlook1. unfold database; cbn [api.world journey.db pgstore.record
      pgstore.participants pgstore.executed].
    repeat split; try reflexivity; try discriminate.
    unfold a1; cbn [api.world journey.db pgstore.record pgstore.with_participants
      pgstore.executed]. fold (database a0). rewrite <- app_assoc. reflexivity.
Qed.

End ConfirmParticipant.

Section ConfirmParticipant_any_store.
Context {W : Type} {Store : api.store W} {Codec : uuid.Codec}.

(** C8. ConfirmParticipant on the ID of a participant that does not exist
    (the store's lookup returns the no-rows error, bare or wrapped) fails
    with "not found", carried by a response of status 400, not 404; the
    update is not called and nothing is logged. *)
Theorem ConfirmParticipant_not_found (r : http.Request) (participantID : string)
    (id : uuid.UUID) (a : api.API W) (participant : pgstore.Participant.t)
    (err : error) (w' : W) :
  uuid.Parse participantID = (id, None) ->
  api.GetParticipant id (api.world a) = ((participant, Some err), w') ->
  errors_Is err ErrNoRows = true ->
  api.PatchParticipantsParticipantIDConfirm r participantID a
  = (api.Return
       {| spec.body := spec.OfError {| spec.Error.Message := "participante não encontrado" |};
          spec.Code := 400 |},
     {| api.world := w'; api.logger := api.logger a; api.launched := api.launched a;
        api.eager := api.eager a |}).
Proof.
  intros Hparse Hget Hrows.
  unfold api.PatchParticipantsParticipantIDConfirm. rewrite Hparse.
  unfold mbind, api.M_bind, api.bind, api.call. rewrite Hget, Hrows. reflexivity.
Qed.

(** For any store: when the lookup finds a confirmed participant, the
    handler answers "already confirmed" without calling the update. *)
Lemma confirm_checks_before_update (r : http.Request) (participantID : string)
    (id : uuid.UUID) (a : api.API W) (participant : pgstore.Participant.t) (w' : W) :
  uuid.Parse participantID = (id, None) ->
  api.GetParticipant id (api.world a) = ((participant, None), w') ->
  pgstore.Participant.IsConfirmed participant = true ->
  api.PatchParticipantsParticipantIDConfirm r participantID a
  = (api.Return (confirm_failure "participante já confirmado"),
     {| api.world := w'; api.logger := api.logger a; api.launched := api.launched a;
        api.eager := api.eager a |}).
Proof.
  intros Hparse Hget Hconf.
  unfold api.PatchParticipantsParticipantIDConfirm. rewrite Hparse.
  unfold mbind, api.M_bind, api.bind, api.call. rewrite Hget, Hconf. reflexivity.
Qed.

End ConfirmParticipant_any_store.


Lemma ConfirmParticipant_twice_witness :
  let a0 := journey.start false (sample.db false) sample.quiet in
  let r := fixture.request "" in
  uuid.Parse sample.bob_id = (7%N, None)
  /\ fst (api.PatchParticipantsParticipantIDConfirm r sample.bob_id a0)
     = api.Return (spec.PatchParticipantsParticipantIDConfirmJSON204Response spec.Nil)
  /\ fst (api.PatchParticipantsParticipantIDConfirm r sample.bob_id (snd (api.PatchParticipantsParticipantIDConfirm r sample.bob_id a0)))
     = api.Return (confirm_failure "participante já confirmado").
Proof.
  intros a0 r.
  pose proof (ConfirmParticipant_twice r r sample.bob_id 7%N sample.bob a0
                eq_refl eq_refl eq_refl) as H.
  destruct (api.PatchParticipantsParticipantIDConfirm r sample.bob_id a0) as [out1 a1].
  cbn [fst snd].
  destruct (api.PatchParticipantsParticipantIDConfirm r sample.bob_id a1) as [out2 a2].
  cbn [fst snd].
  destruct H as (H2 & _ & _ & H1 & _).
  split; [reflexivity | split; [apply H1; reflexivity | exact H2]].
Defined.

Lemma ConfirmParticipant_not_found_witness :
  let a := journey.start false (sample.db false) sample.quiet in
  uuid.Parse sample.nobody_id = (9%N, None)
  /\ pgstore.participants (database a) !! 9%N = None
  /\ fst (api.PatchParticipantsParticipantIDConfirm (fixture.request "") sample.nobody_id a)
     = api.Return (confirm_failure "participante não encontrado")
  /\ pgstore.executed
       (database
          (snd (api.PatchParticipantsParticipantIDConfirm (fixture.request "")
                  sample.nobody_id a)))
     = [pgstore.ExecGetParticipant 9%N].
Proof.
  intros a.
  assert (Hparse : uuid.Parse sample.nobody_id = (9%N, None)) by reflexivity.
  assert (Hget : api.GetParticipant 9%N (api.world a)
                 = ((pgstore.Participant.zero, Some ErrNoRows),
                    {| journey.db :=
                         pgstore.record (pgstore.ExecGetParticipant 9%N) (sample.db false);
                       journey.server := sample.quiet |})) by reflexivity.
  rewrite (ConfirmParticipant_not_found (fixture.request "") sample.nobody_id 9%N a
             _ _ _ Hparse Hget eq_refl).
  repeat split.
Defined.

(** ** Updating a trip *)

Section UpdateTrip.
Context {Codec : uuid.Codec}
        {DecodeUpdateTrip : json.Decoder spec.UpdateTripRequest.t}
        {ValidateUpdateTrip : validator.Validate spec.UpdateTripRequest.t}.

Local Abbreviation put := (api.PutTripsTripID (W := journey.World)).

(** C2. Whatever an UpdateTrip call answers, no trip changes its
    is-confirmed value: a confirmed trip stays confirmed, an unconfirmed one
    stays unconfirmed.  When the call succeeds, the row of the trip has the
    destination, starts-at and ends-at of the request, and its other columns
    as before. *)
Theorem UpdateTrip_keeps_is_confirmed (r : http.Request) (tripID : string)
    (a a' : api.API journey.World) (out : api.outcome spec.Response) :
  put r tripID a = (out, a') ->
  (forall id : uuid.UUID,
     pgstore.Trip.IsConfirmed <$> pgstore.trips (database a') !! id
     = pgstore.Trip.IsConfirmed <$> pgstore.trips (database a) !! id)
  /\ (out = api.Return (spec.PutTripsTripIDJSON204Response spec.Nil) ->
      exists (id : uuid.UUID) (trip : pgstore.Trip.t) (body : spec.UpdateTripRequest.t),
        uuid.Parse tripID = (id, None)
        /\ json.Decode (http.Body r) = inl body
        /\ pgstore.trips (database a) !! id = Some trip
        /\ pgstore.trips (database a')
           = <[id :=
                {| pgstore.Trip.ID := pgstore.Trip.ID trip;
                   pgstore.Trip.Destination := spec.UpdateTripRequest.Destination body;
                   pgstore.Trip.OwnerEmail := pgstore.Trip.OwnerEmail trip;
                   pgstore.Trip.OwnerName := pgstore.Trip.OwnerName trip;
                   pgstore.Trip.IsConfirmed := pgstore.Trip.IsConfirmed trip;
                   pgstore.Trip.StartsAt :=
                     {| pgtype.Time := spec.UpdateTripRequest.StartsAt body;
                        pgtype.Valid := true |};
                   pgstore.Trip.EndsAt :=
                     {| pgtype.Time := spec.UpdateTripRequest.EndsAt body;
                        pgtype.Valid := true |} |}]>
             (pgstore.trips (database a))).
Proof.
  unfold api.PutTripsTripID, database.
  destruct (uuid.Parse tripID) as [id [err|]] eqn:Hparse.
  { intros [= <- <-]. cbn. split; [reflexivity | discriminate]. }
  unfold mbind, api.M_bind, api.bind, api.call;
    cbn [api.GetTrip api.UpdateTrip journey.api_store].
  unfold journey.query, pgstore.GetTrip.
  destruct (pgstore.reachable (journey.db (api.world a))) eqn:Hreach;
    [ | intros [= <- <-]; cbn; split; [reflexivity | discriminate] ].
  destruct (pgstore.trips (journey.db (api.world a)) !! id) as [trip|] eqn:Hlook;
    [ | intros [= <- <-]; cbn; split; [reflexivity | discriminate] ].
  cbn [errors_Is].
  destruct (json.Decode (http.Body r)) as [body|e] eqn:Hdec;
    [ | intros [= <- <-]; cbn; split; [reflexivity | discriminate] ].
  destruct (validator.Struct body) as [e|] eqn:Hval;
    [ intros [= <- <-]; cbn; split; [reflexivity | discriminate] | ].
  unfold pgstore.UpdateTrip.
  cbn [api.world journey.db journey.server pgstore.reachable pgstore.record].
  rewrite Hreach. intros [= <- <-].
  cbn [api.world journey.db pgstore.record pgstore.with_trips pgstore.trips
       pgstore.UpdateTripParams.ID].
  split.
  - intros id'. destruct (decide (id = id')) as [<-|Hne].
    + rewrite lookup_alter_eq, Hlook. reflexivity.
    + rewrite lookup_alter_ne by assumption. reflexivity.
  - intros _. exists id, trip, body. repeat split; try assumption.
    rewrite (alter_alt_Some _ _ _ _ Hlook). reflexivity.
Qed.

End UpdateTrip.

Lemma UpdateTrip_keeps_is_confirmed_witness :
  let a := journey.start false (sample.db true) sample.quiet in
  let '(out, a') := api.PutTripsTripID (fixture.request "lyon.json") sample.trip_id a in
  out = api.Return (spec.PutTripsTripIDJSON204Response spec.Nil)
  /\ pgstore.Trip.IsConfirmed <$> pgstore.trips (database a') !! 1%N = Some true
  /\ pgstore.Trip.Destination <$> pgstore.trips (database a') !! 1%N = Some "Lyon".
Proof.
  intros a.
  destruct (api.PutTripsTripID (fixture.request "lyon.json") sample.trip_id a)
    as [out a'] eqn:E.
  destruct (UpdateTrip_keeps_is_confirmed _ _ _ _ _ E) as [Hkeep _].
  rewrite Hkeep.
  vm_compute in E. injection E as <- <-.
  repeat split.
Defined.

(** ** Confirming a trip *)

Lemma GetTripsTripIDConfirm_panics {W : Type} (r : http.Request) (tripID : string)
    (a : api.API W) :
  api.GetTripsTripIDConfirm r tripID a = (api.Panic "not implemented", a).
Proof. reflexivity. Qed.

(** C3, on the code. ConfirmTrip is the unimplemented handler: called on an
    existing, unconfirmed trip it panics with "not implemented", once and
    again; it launches nothing, sends nothing and leaves the database as it
    was, so the trip is not confirmed after either call. *)
Theorem ConfirmTrip_not_implemented :
  let a := journey.start false (sample.db false) sample.quiet in
  let h := api.GetTripsTripIDConfirm (fixture.request "") sample.trip_id in
  api.serve h a = (api.Panic "not implemented", a)
  /\ api.serve h (snd (api.serve h a)) = (api.Panic "not implemented", a)
  /\ pgstore.Trip.IsConfirmed <$> pgstore.trips (database a) !! 1%N = Some false
  /\ mail.inbox (mailserver a) = [].
Proof. repeat split. Qed.

(** ** Creating a trip *)

Section PostTrips.
Context {W : Type} {Store : api.store W} {Codec : uuid.Codec}.
Context {DecodeCreateTrip : json.Decoder spec.CreateTripRequest.t}
        {ValidateCreateTrip : validator.Validate spec.CreateTripRequest.t}.

(** The goroutine of [PostTrips]: one call of the mailer, and one log entry
    if the mailer returns an error. *)
Lemma run_PostTrips_func1 {Mailer : api.mailer W} (tripID : uuid.UUID) (a : api.API W) :
  api.run (api.PostTrips_func1 tripID) a =
    (api.Return tt,
     {| api.world := snd (api.SendConfirmTripEmailToTripOwner tripID (api.world a));
        api.logger :=
          api.logger a
          ++ email_entries tripID
               (fst (api.SendConfirmTripEmailToTripOwner tripID (api.world a)));
        api.launched := api.launched a;
        api.eager := api.eager a |}).
Proof.
  unfold api.run, mbind, api.M_bind, api.bind, api.call.
  destruct (api.SendConfirmTripEmailToTripOwner tripID (api.world a)) as [[err|] w];
    cbn; [reflexivity | rewrite app_nil_r; reflexivity].
Qed.

(** [PostTrips] on a request that decodes and validates. *)
Lemma PostTrips_valid {Mailer : api.mailer W} (r : http.Request)
    (body : spec.CreateTripRequest.t) (a : api.API W)
    (tripID : uuid.UUID) (err : option error) (w1 : W) :
  json.Decode (http.Body r) = inl body ->
  validator.Struct body = None ->
  api.CreateTrip body (api.world a) = ((tripID, err), w1) ->
  api.PostTrips r a =
    (api.Return (PostTrips_response tripID err),
     if api.eager a then
       {| api.world := snd (api.SendConfirmTripEmailToTripOwner tripID w1);
          api.logger :=
            (api.logger a
             ++ email_entries tripID (fst (api.SendConfirmTripEmailToTripOwner tripID w1)))
            ++ create_entries err;
          api.launched := api.launched a;
          api.eager := true |}
     else
       {| api.world := w1;
          api.logger := api.logger a ++ create_entries err;
          api.launched := api.launched a ++ [api.PostTrips_func1 tripID];
          api.eager := false |}).
Proof.
  intros Hdec Hval Hcreate.
  unfold api.PostTrips. rewrite Hdec, Hval.
  unfold mbind, api.M_bind, api.bind, api.call at 1. rewrite Hcreate.
  unfold api.go; cbn [api.eager api.world api.logger api.launched].
  destruct (api.eager a) eqn:Heager.
  - rewrite run_PostTrips_func1; cbn [api.eager api.world api.logger api.launched].
    destruct err as [err|]; cbn; [reflexivity | rewrite app_nil_r; reflexivity].
  - destruct err as [err|]; cbn; [reflexivity | rewrite app_nil_r; reflexivity].
Qed.

Lemma PostTrips_answers {Mailer : api.mailer W} (r : http.Request) (a : api.API W) :
  fst (api.PostTrips r a) = api.Return (PostTrips_answer r (api.world a)).
Proof.
  unfold PostTrips_answer.
  destruct (json.Decode (http.Body r)) as [body|e] eqn:Hdec.
  - destruct (validator.Struct body) as [e|] eqn:Hval.
    + unfold api.PostTrips. rewrite Hdec, Hval. reflexivity.
    + destruct (api.CreateTrip body (api.world a)) as [[tripID err] w1] eqn:Hcreate.
      rewrite (PostTrips_valid r body a tripID err w1) by assumption. reflexivity.
  - unfold api.PostTrips. rewrite Hdec. reflexivity.
Qed.

(** C4. Two executions of CreateTrip on the same request and the same store
    return the same response to the caller, whatever the two mailers do
    (succeed, fail, or anything else), whatever was logged or launched
    before, and whether the goroutine runs at once or after the handler. *)
Theorem PostTrips_response_independent_of_mailer
    (mailer1 mailer2 : api.mailer W) (r : http.Request) (w : W)
    (logger1 logger2 : list zap.Entry) (launched1 launched2 : list api.goroutine)
    (eager1 eager2 : bool) :
  fst (api.serve (Mailer := mailer1) (api.PostTrips (Mailer := mailer1) r)
         {| api.world := w; api.logger := logger1; api.launched := launched1;
            api.eager := eager1 |})
  = fst (api.serve (Mailer := mailer2) (api.PostTrips (Mailer := mailer2) r)
           {| api.world := w; api.logger := logger2; api.launched := launched2;
              api.eager := eager2 |}).
Proof.
  unfold api.serve.
  pose proof (PostTrips_answers (Mailer := mailer1) r
                {| api.world := w; api.logger := logger1; api.launched := launched1;
                   api.eager := eager1 |}) as Hrun1.
  pose proof (PostTrips_answers (Mailer := mailer2) r
                {| api.world := w; api.logger := logger2; api.launched := launched2;
                   api.eager := eager2 |}) as Hrun2.
  destruct (api.PostTrips (Mailer := mailer1) r _) as [out1 a1].
  destruct (api.PostTrips (Mailer := mailer2) r _) as [out2 a2].
  cbn [fst api.world] in *. congruence.
Qed.

End PostTrips.

Section PostTrips_notification.
Context {W : Type} {Store : api.store W} {Mailer : api.mailer W} {Codec : uuid.Codec}.
Context {DecodeCreateTrip : json.Decoder spec.CreateTripRequest.t}
        {ValidateCreateTrip : validator.Validate spec.CreateTripRequest.t}.

(** C9. For a request that passes decoding and validation, the mailer is
    called with the ID the store's CreateTrip returned, on the world that
    call left, whatever error came with the ID; the response is the generic
    failure when there was an error and the created ID otherwise; the log
    has the store's error and the mailer's, each if there is one. *)
Theorem PostTrips_sends_email_whatever_CreateTrip_returns
    (r : http.Request) (body : spec.CreateTripRequest.t) (a : api.API W)
    (tripID : uuid.UUID) (err : option error) (w1 : W) :
  json.Decode (http.Body r) = inl body ->
  validator.Struct body = None ->
  api.CreateTrip body (api.world a) = ((tripID, err), w1) ->
  api.launched a = [] ->
  let '(out, a') := api.serve (api.PostTrips r) a in
  let sent := api.SendConfirmTripEmailToTripOwner tripID w1 in
  out = api.Return (PostTrips_response tripID err)
  /\ (forall e, err = Some e ->
        out = api.Return
                {| spec.body :=
                     spec.OfError {| spec.Error.Message := "something went wrong, try again" |};
                   spec.Code := 400 |})
  /\ api.world a' = snd sent
  /\ api.logger a'
     = api.logger a
       ++ (if api.eager a then email_entries tripID (fst sent) ++ create_entries err
           else create_entries err ++ email_entries tripID (fst sent))
  /\ api.launched a' = [].
Proof.
  intros Hdec Hval Hcreate Hlaunched.
  unfold api.serve.
  rewrite (PostTrips_valid r body a tripID err w1) by assumption.
  rewrite Hlaunched.
  destruct (api.eager a) eqn:Heager.
  - unfold api.settle; cbn [api.launched api.run_all api.world api.logger api.eager].
    rewrite <- app_assoc.
    repeat split. intros e ->. reflexivity.
  - unfold api.settle; cbn [api.launched app api.run_all api.world api.logger api.eager].
    rewrite run_PostTrips_func1; cbn [snd api.world api.logger api.launched api.eager].
    rewrite <- app_assoc.
    repeat split. intros e ->. reflexivity.
Qed.

End PostTrips_notification.

Lemma PostTrips_sends_email_whatever_CreateTrip_returns_witness :
  let a := journey.start false sample.offline sample.quiet in
  let r := fixture.request "paris.json" in
  json.Decode (http.Body r) = inl fixture.paris
  /\ validator.Struct fixture.paris = None
  /\ snd (fst (api.CreateTrip fixture.paris (api.world a)))
     = Some (fmt_Errorf "pgstore: failed to begin tx for CreateTrip" pgstore.unavailable)
  /\ fst (api.serve (api.PostTrips r) a)
     = api.Return
         {| spec.body :=
              spec.OfError {| spec.Error.Message := "something went wrong, try again" |};
            spec.Code := 400 |}
  /\ zap.Message <$> api.logger (snd (api.serve (api.PostTrips r) a))
     = ["failed to create trip"; "failed to send email on PostTrips"].
Proof.
  intros a r.
  pose proof (PostTrips_sends_email_whatever_CreateTrip_returns r fixture.paris a
                uuid.Nil
                (Some (fmt_Errorf "pgstore: failed to begin tx for CreateTrip"
                         pgstore.unavailable))
                (api.world a) eq_refl eq_refl eq_refl eq_refl) as H.
  destruct (api.serve (api.PostTrips r) a) as [out a'].
  destruct H as (Hout & _ & _ & Hlog & _).
  cbn [fst snd]. rewrite Hout, Hlog.
  repeat split.
Defined.

(** The same request served with a mail server that refuses the connection
    and with one that accepts it: the same 201, and one more log entry in the
    first run. *)
Example PostTrips_with_and_without_mail :
  let refusing := {| mail.inbox := []; mail.dial := [false] |} in
  let accepting := {| mail.inbox := []; mail.dial := [true] |} in
  let r := fixture.request "paris.json" in
  let run1 := api.serve (api.PostTrips r) (journey.start false pgstore.empty refusing) in
  let run2 := api.serve (api.PostTrips r) (journey.start false pgstore.empty accepting) in
  fst run1 = fst run2
  /\ fst run1 = api.Return (spec.PostTripsJSON201Response
                    {| spec.CreateTripResponse.TripID := "00000000-0000-0000-0000-000000000001" |})
  /\ zap.Message <$> api.logger (snd run1) = ["failed to send email on PostTrips"]
  /\ api.logger (snd run2) = []
  /\ length (mail.inbox (mailserver (snd run1))) = 0%nat
  /\ length (mail.inbox (mailserver (snd run2))) = 1%nat.
Proof. vm_compute. repeat split. Qed.

(** ** Creating an activity *)

Section CreateActivity.
Context {Codec : uuid.Codec}
        {DecodeCreateActivity : json.Decoder spec.CreateActivityRequest.t}
        {ValidateCreateActivity : validator.Validate spec.CreateActivityRequest.t}.

(** The handler answers "trip not found" when the store's error is the
    no-rows sentinel: for any store. *)
Lemma PostTripsTripIDActivities_on_no_rows {W : Type} {Store : api.store W}
    (r : http.Request) (tripID : string) (id activityID : uuid.UUID)
    (body : spec.CreateActivityRequest.t) (err : error) (a : api.API W) (w1 : W) :
  uuid.Parse tripID = (id, None) ->
  json.Decode (http.Body r) = inl body ->
  validator.Struct body = None ->
  api.CreateActivity
    {| pgstore.CreateActivityParams.TripID := id;
       pgstore.CreateActivityParams.Title := spec.CreateActivityRequest.Title body;
       pgstore.CreateActivityParams.OccursAt :=
         {| pgtype.Time := spec.CreateActivityRequest.OccursAt body;
            pgtype.Valid := true |} |} (api.world a) = ((activityID, Some err), w1) ->
  errors_Is err ErrNoRows = true ->
  fst (api.PostTripsTripIDActivities r tripID a)
  = api.Return (spec.PostTripsTripIDActivitiesJSON400Response (api.Message "trip not found")).
Proof.
  intros Hparse Hdec Hval Hcreate Hrows.
  unfold api.PostTripsTripIDActivities. rewrite Hparse, Hdec, Hval.
  unfold mbind, api.M_bind, api.bind, api.call. rewrite Hcreate, Hrows. reflexivity.
Qed.

(** On the database, the insert of an activity for a trip that does not
    exist is rejected by the foreign key, and the handler, which has not
    looked the trip up, answers with the generic failure. *)
Lemma PostTripsTripIDActivities_on_missing_trip
    (r : http.Request) (tripID : string) (id : uuid.UUID)
    (body : spec.CreateActivityRequest.t) (a : api.API journey.World) :
  uuid.Parse tripID = (id, None) ->
  json.Decode (http.Body r) = inl body ->
  validator.Struct body = None ->
  pgstore.reachable (database a) = true ->
  pgstore.trips (database a) !! id = None ->
  let '(out, a') := api.PostTripsTripIDActivities r tripID a in
  out = api.Return
          (spec.PostTripsTripIDActivitiesJSON400Response
             (api.Message "something went wrong, try again"))
  /\ api.logger a'
     = api.logger a
       ++ [{| zap.Message := "failed to create activity";
              zap.Fields := [zap.Error pgstore.foreign_key_violation] |}]
  /\ pgstore.executed (database a')
     = pgstore.executed (database a) ++ [pgstore.ExecCreateActivity id].
Proof.
  intros Hparse Hdec Hval Hreach Hlook.
  unfold api.PostTripsTripIDActivities, database in *. rewrite Hparse, Hdec, Hval.
  unfold mbind, api.M_bind, api.bind, api.call;
    cbn [api.CreateActivity journey.api_store].
  unfold journey.query, pgstore.CreateActivity.
  cbn [pgstore.CreateActivityParams.TripID].
  rewrite Hreach, Hlook. cbn. repeat split.
Qed.

End CreateActivity.

(** C5, on the code. CreateActivity for a trip ID that refers to no trip:
    the answer is the generic failure "something went wrong, try again", not
    "trip not found"; the only statement executed is the insert. *)
Theorem CreateActivity_on_missing_trip :
  let a := journey.start false (sample.db false) sample.quiet in
  let served :=
    api.serve (api.PostTripsTripIDActivities (fixture.request "louvre.json")
                 sample.nobody_id) a in
  uuid.Parse sample.nobody_id = (9%N, None)
  /\ pgstore.trips (database a) !! 9%N = None
  /\ fst served
     = api.Return
         {| spec.body :=
              spec.OfError {| spec.Error.Message := "something went wrong, try again" |};
            spec.Code := 400 |}
  /\ api.logger (snd served)
     = [{| zap.Message := "failed to create activity";
           zap.Fields := [zap.Error pgstore.foreign_key_violation] |}]
  /\ pgstore.executed (database (snd served)) = [pgstore.ExecCreateActivity 9%N].
Proof. vm_compute. repeat split. Qed.

(** ** Creating a trip and reading it back *)

Lemma same_tables_refl (d : pgstore.DB) : same_tables d d.
Proof. repeat split. Qed.

Lemma same_tables_trans (d1 d2 d3 : pgstore.DB) :
  same_tables d1 d2 -> same_tables d2 d3 -> same_tables d1 d3.
Proof.
  unfold same_tables. intros (? & ? & ? & ? & ?) (? & ? & ? & ? & ?).
  repeat split; congruence.
Qed.

Lemma record_same_tables (st : pgstore.Statement) (d : pgstore.DB) :
  same_tables (pgstore.record st d) d.
Proof. repeat split. Qed.

Lemma GetTrip_same_tables (id : uuid.UUID) (d : pgstore.DB) :
  same_tables (snd (pgstore.GetTrip id d)) d.
Proof.
  unfold pgstore.GetTrip.
  destruct (pgstore.reachable d); [ | apply same_tables_refl ].
  destruct (pgstore.trips d !! id); apply record_same_tables.
Qed.

(** The notifier reads the database and writes to the mail server: the rows
    are as before. *)
Lemma MailPit_same_tables {Addresses : mail.AddressParser}
    (tripId : uuid.UUID) (w : journey.World) :
  same_tables (journey.db (snd (mailpit.SendConfirmTripEmailToTripOwner tripId w)))
    (journey.db w).
Proof.
  unfold mailpit.SendConfirmTripEmailToTripOwner.
  cbn [mailpit.GetTrip journey.mailpit_store]. unfold journey.query.
  pose proof (GetTrip_same_tables tripId (journey.db w)) as Hget.
  destruct (pgstore.GetTrip tripId (journey.db w)) as [[trip [err|]] d];
    cbn [snd] in Hget; [exact Hget | ].
  destruct (mail.From _ _) as [msg [err|]]; [exact Hget | ].
  destruct (mail.To _ _) as [msg' [err|]]; [exact Hget | ].
  destruct (mail.NewClient _ _) as [client [err|]]; [exact Hget | ].
  unfold mail.DialAndSend, journey.transport; cbn [journey.server journey.db].
  destruct (mail.deliver _ _) as [[err|] srv]; exact Hget.
Qed.

Lemma run_all_same_tables {Addresses : mail.AddressParser} {Codec : uuid.Codec}
    (gs : list api.goroutine) (a : api.API journey.World) :
  same_tables (database (api.run_all gs a)) (database a).
Proof.
  revert a. induction gs as [|[tripID] gs IH]; intros a; cbn [api.run_all].
  - apply same_tables_refl.
  - eapply same_tables_trans; [apply IH | ].
    rewrite run_PostTrips_func1. unfold database; cbn [snd api.world].
    apply MailPit_same_tables.
Qed.

Lemma invite_all_trips (tripID : uuid.UUID) (emails : list string) (d : pgstore.DB) :
  pgstore.trips (fold_left (pgstore.invite tripID) emails d) = pgstore.trips d
  /\ pgstore.reachable (fold_left (pgstore.invite tripID) emails d) = pgstore.reachable d.
Proof.
  revert d. induction emails as [|email emails IH]; intros d; cbn [fold_left].
  - split; reflexivity.
  - destruct (IH (pgstore.invite tripID d email)) as [-> ->]. split; reflexivity.
Qed.

Section RoundTrip.
Context {Codec : uuid.Codec} {Addresses : mail.AddressParser}.
Context {DecodeCreateTrip : json.Decoder spec.CreateTripRequest.t}
        {ValidateCreateTrip : validator.Validate spec.CreateTripRequest.t}.

(** C7. A valid creation request with destination D, start S and end E is
    answered with a trip ID, and fetching the trip by that ID returns
    destination D, starts-at S, ends-at E and is-confirmed false.  The ID
    travels as text: its text is taken to parse back to it. *)
Theorem CreateTrip_then_GetTrip (r r' : http.Request)
    (body : spec.CreateTripRequest.t) (a : api.API journey.World) (id : uuid.UUID) :
  json.Decode (http.Body r) = inl body ->
  validator.Struct body = None ->
  pgstore.reachable (database a) = true ->
  fst (fst (pgstore.CreateTrip body (database a))) = id ->
  uuid.Parse (uuid.String id) = (id, None) ->
  let '(created, a1) := api.serve (api.PostTrips r) a in
  created = api.Return
              {| spec.body :=
                   spec.OfCreateTripResponse
                     {| spec.CreateTripResponse.TripID := uuid.String id |};
                 spec.Code := 201 |}
  /\ fst (api.GetTripsTripID r' (uuid.String id) a1)
     = api.Return
         {| spec.body :=
              spec.OfGetTripDetailsResponse
                {| spec.GetTripDetailsResponse.Trip :=
                     {| spec.GetTripDetailsResponseTripObj.Destination :=
                          spec.CreateTripRequest.Destination body;
                        spec.GetTripDetailsResponseTripObj.EndsAt :=
                          spec.CreateTripRequest.EndsAt body;
                        spec.GetTripDetailsResponseTripObj.ID := uuid.String id;
                        spec.GetTripDetailsResponseTripObj.IsConfirmed := false;
                        spec.GetTripDetailsResponseTripObj.StartsAt :=
                          spec.CreateTripRequest.StartsAt body |} |};
            spec.Code := 200 |}.
Proof.
  intros Hdec Hval Hreach Hid Hcodec.
  unfold api.serve.
  destruct (api.CreateTrip body (api.world a)) as [[tripID err] w1] eqn:Hcreate.
  rewrite (PostTrips_valid r body a tripID err w1) by assumption.
  (* what the store did *)
  cbn [api.CreateTrip journey.api_store] in Hcreate. unfold journey.query in Hcreate.
  unfold database in *. unfold pgstore.CreateTrip in Hcreate, Hid.
  rewrite Hreach in Hcreate, Hid. cbn [fst] in Hid.
  injection Hcreate as Htrip <- <-. rewrite Hid in Htrip. subst tripID.
  set (d1 := pgstore.record _ _).
  assert (Hd1 : pgstore.trips d1 !! id = Some (pgstore.new_trip id body)
                /\ pgstore.reachable d1 = true).
  { unfold d1; cbn [pgstore.record pgstore.trips pgstore.reachable].
    rewrite Hid.
    destruct (invite_all_trips id (spec.CreateTripRequest.EmailsToInvite body)
                (pgstore.with_trips (insert id (pgstore.new_trip id body))
                   (journey.db (api.world a))))
      as [-> ->].
    cbn [pgstore.with_trips pgstore.trips pgstore.reachable].
    rewrite lookup_insert_eq. split; [reflexivity | exact Hreach]. }
  (* the state once the goroutines have run *)
  match goal with |- context [api.settle ?s] => set (a1 := api.settle s) end.
  assert (Ha1 : same_tables (database a1) d1).
  { unfold a1, api.settle.
    eapply same_tables_trans; [apply run_all_same_tables | ].
    destruct (api.eager a); unfold database; cbn [api.world journey.db].
    - apply MailPit_same_tables.
    - apply same_tables_refl. }
  split; [reflexivity | ].
  unfold api.GetTripsTripID. rewrite Hcodec.
  unfold mbind, api.M_bind, api.bind, api.call; cbn [api.GetTrip journey.api_store].
  unfold journey.query, pgstore.GetTrip.
  destruct Ha1 as (Htrips & _ & _ & _ & Hre). destruct Hd1 as [Hlook Hreach1].
  unfold database in *. rewrite Hre, Hreach1, Htrips, Hlook. reflexivity.
Qed.

End RoundTrip.

Lemma CreateTrip_then_GetTrip_witness :
  let a := journey.start true (sample.db true) sample.quiet in
  let r := fixture.request "paris.json" in
  let '(created, a1) := api.serve (api.PostTrips r) a in
  created = api.Return (spec.PostTripsJSON201Response
              {| spec.CreateTripResponse.TripID := "00000000-0000-0000-0000-000000000002" |})
  /\ fst (api.GetTripsTripID (fixture.request "") "00000000-0000-0000-0000-000000000002" a1)
     = api.Return
         (spec.GetTripsTripIDJSON200Response
            {| spec.GetTripDetailsResponse.Trip :=
                 {| spec.GetTripDetailsResponseTripObj.Destination := "Paris";
                    spec.GetTripDetailsResponseTripObj.EndsAt := time.Date 2025 6 10 0 0 0 0;
                    spec.GetTripDetailsResponseTripObj.ID :=
                      "00000000-0000-0000-0000-000000000002";
                    spec.GetTripDetailsResponseTripObj.IsConfirmed := false;
                    spec.GetTripDetailsResponseTripObj.StartsAt :=
                      time.Date 2025 6 1 0 0 0 0 |} |}).
Proof.
  intros a r.
  exact (CreateTrip_then_GetTrip r (fixture.request "") fixture.paris a 2%N
           eq_refl eq_refl eq_refl eq_refl eq_refl).
Defined.

(** ** The date text of a time *)

Lemma appendInt_app (b : list ascii) (x : Z) (width : nat) :
  time.appendInt b x width = b ++ time.appendInt [] x width.
Proof.
  unfold time.appendInt. destruct (x <? 0); cbn [app];
    rewrite <- ?app_assoc; reflexivity.
Qed.

(** Reading a zero-padded run of digits gives the number back. *)
Lemma padded_digits_value (k : nat) (u : N) :
  N.of_uint <$>
    NilEmpty.uint_of_string
      (string_of_list_ascii (replicate k "0"%char ++ time.digits u))
  = Some u.
Proof.
  induction k as [|k IH]; cbn [replicate app string_of_list_ascii].
  - unfold time.digits. rewrite string_of_list_ascii_of_string.
    assert (Hnil : N.to_uint u <> Decimal.Nil).
    { destruct u as [|p]; [cbv; discriminate | apply DecimalPos.Unsigned.to_uint_nonnil]. }
    assert (Heq : NilZero.string_of_uint (N.to_uint u)
                  = NilEmpty.string_of_uint (N.to_uint u)).
    { destruct (N.to_uint u); [contradiction | reflexivity ..]. }
    rewrite Heq, NilEmpty.usu. cbn. f_equal. apply DecimalN.Unsigned.of_to.
  - cbn [NilEmpty.uint_of_string].
    destruct (NilEmpty.uint_of_string _) as [d|]; cbn in IH |- *;
      [exact IH | discriminate IH].
Qed.

(** [appendInt] prints different numbers differently. *)
Lemma appendInt_inj (x1 x2 : Z) (width : nat) :
  time.appendInt [] x1 width = time.appendInt [] x2 width -> x1 = x2.
Proof.
  unfold time.appendInt. cbn [app].
  pose proof (padded_digits_value (width - length (time.digits (Z.abs_N x1)))
                (Z.abs_N x1)) as H1.
  pose proof (padded_digits_value (width - length (time.digits (Z.abs_N x2)))
                (Z.abs_N x2)) as H2.
  destruct (Z.ltb_spec x1 0) as [Hn1|Hp1], (Z.ltb_spec x2 0) as [Hn2|Hp2];
    cbn [app]; intros Heq.
  - injection Heq as Heq. rewrite Heq in H1. rewrite H1 in H2.
    injection H2 as H2. lia.
  - rewrite <- Heq in H2. cbn [string_of_list_ascii NilEmpty.uint_of_string] in H2.
    unfold uint_of_char in H2. cbn in H2.
    destruct (NilEmpty.uint_of_string _) in H2; discriminate H2.
  - rewrite Heq in H1. cbn [string_of_list_ascii NilEmpty.uint_of_string] in H1.
    unfold uint_of_char in H1. cbn in H1.
    destruct (NilEmpty.uint_of_string _) in H1; discriminate H1.
  - rewrite Heq in H1. rewrite H1 in H2. injection H2 as H2. lia.
Qed.

(** Below one hundred, a two-digit field has two characters. *)
Lemma appendInt_2_length (x : Z) :
  0 <= x < 100 -> length (time.appendInt [] x 2) = 2%nat.
Proof.
  intros Hx.
  assert (Hall : forallb (fun n => Nat.eqb (length (time.appendInt [] (Z.of_nat n) 2)) 2)
                   (seq 0 100) = true) by (vm_compute; reflexivity).
  rewrite forallb_forall in Hall.
  specialize (Hall (Z.to_nat x)). rewrite Z2Nat.id in Hall by lia.
  apply Nat.eqb_eq, Hall, in_seq. lia.
Qed.

(** The date text depends on the calendar date only. *)
Lemma Format_DateOnly_of_date (t1 t2 : time.Time) :
  time.calendar_date t1 = time.calendar_date t2 ->
  time.Format_DateOnly t1 = time.Format_DateOnly t2.
Proof.
  unfold time.calendar_date, time.Format_DateOnly. intros [= -> -> ->]. reflexivity.
Qed.

(** Two civil times with the same date text have the same calendar date. *)
Lemma Format_DateOnly_inj (t1 t2 : time.Time) :
  time.civil t1 -> time.civil t2 ->
  time.Format_DateOnly t1 = time.Format_DateOnly t2 ->
  time.calendar_date t1 = time.calendar_date t2.
Proof.
  intros [Hm1 Hd1] [Hm2 Hd2] Heq.
  unfold time.Format_DateOnly in Heq.
  apply (f_equal list_ascii_of_string) in Heq.
  rewrite !list_ascii_of_string_of_list_ascii in Heq.
  rewrite !(appendInt_app (_ ++ _)) in Heq. rewrite <- !app_assoc in Heq.
  pose proof (appendInt_2_length (time.Month t1) ltac:(lia)) as Lm1.
  pose proof (appendInt_2_length (time.Month t2) ltac:(lia)) as Lm2.
  pose proof (appendInt_2_length (time.Day t1) ltac:(lia)) as Ld1.
  pose proof (appendInt_2_length (time.Day t2) ltac:(lia)) as Ld2.
  apply app_inj_2 in Heq; [ | rewrite !length_app, Lm1, Lm2, Ld1, Ld2; reflexivity ].
  destruct Heq as [Hy Heq]. cbn [app] in Heq. injection Heq as Heq.
  apply app_inj_1 in Heq; [ | congruence ].
  destruct Heq as [Hm Heq]. cbn [app] in Heq. injection Heq as Hd.
  apply appendInt_inj in Hy, Hm, Hd.
  unfold time.calendar_date. congruence.
Qed.

(** ** Listing the activities of a trip *)

Section Grouping.

Local Abbreviation key act :=
  (time.Format_DateOnly (pgtype.Time (pgstore.Activity.OccursAt act))).

Local Abbreviation step :=
  (fun (grouped : gmap string (list pgstore.Activity.t)) activity =>
     <[key activity := default [] (grouped !! key activity) ++ [activity]]> grouped).

(** After the first loop, the entry of a date text holds what it held
    before, then the activities of that date text, in their order. *)
Lemma grouped_lookup_from (activities : list pgstore.Activity.t)
    (grouped : gmap string (list pgstore.Activity.t)) (k : string) :
  default [] (fold_left step activities grouped !! k)
  = default [] (grouped !! k) ++ filter (fun act => key act = k) activities.
Proof.
  revert grouped. induction activities as [|act activities IH]; intros grouped;
    cbn [fold_left].
  - rewrite filter_nil, app_nil_r. reflexivity.
  - rewrite IH. destruct (decide (key act = k)) as [<-|Hne].
    + rewrite lookup_insert_eq, filter_cons_True by reflexivity.
      cbn [from_option id]. rewrite <- app_assoc. reflexivity.
    + rewrite lookup_insert_ne, filter_cons_False by assumption. reflexivity.
Qed.

Lemma grouped_nonempty_from (activities : list pgstore.Activity.t)
    (grouped : gmap string (list pgstore.Activity.t)) :
  (forall k l, grouped !! k = Some l -> l <> []) ->
  forall k l, fold_left step activities grouped !! k = Some l -> l <> [].
Proof.
  revert grouped. induction activities as [|act activities IH]; intros grouped Hne;
    cbn [fold_left]; [exact Hne | ].
  apply IH. intros k l. destruct (decide (key act = k)) as [<-|Hk].
  - rewrite lookup_insert_eq. intros [= <-]. destruct (default [] _); discriminate.
  - rewrite lookup_insert_ne by assumption. apply Hne.
Qed.

(** The first loop loses and duplicates nothing. *)
Lemma grouped_permutation_from (activities : list pgstore.Activity.t)
    (grouped : gmap string (list pgstore.Activity.t)) :
  mjoin (snd <$> map_to_list (fold_left step activities grouped))
  ≡ₚ mjoin (snd <$> map_to_list grouped) ++ activities.
Proof.
  revert grouped. induction activities as [|act activities IH]; intros grouped;
    cbn [fold_left].
  - rewrite app_nil_r. reflexivity.
  - rewrite IH.
    transitivity ((mjoin (snd <$> map_to_list grouped) ++ [act]) ++ activities);
      [ apply Permutation_app_tail | rewrite <- app_assoc; reflexivity ].
    destruct (grouped !! key act) as [l|] eqn:Hlook; cbn [from_option id].
    + rewrite <- insert_delete_eq.
      rewrite map_to_list_insert by apply lookup_delete_eq.
      rewrite <- (map_to_list_delete grouped _ _ Hlook).
      cbn [fmap list_fmap snd mjoin list_join].
      rewrite <- !app_assoc. apply Permutation_app_head, Permutation_app_comm.
    + rewrite map_to_list_insert by assumption.
      cbn [fmap list_fmap snd mjoin list_join app].
      apply Permutation_cons_append.
Qed.

(** The entries of the map: under a date text, exactly the activities of
    that date text, and at least one. *)
Lemma groupedActivities_lookup (activities : list pgstore.Activity.t)
    (k : string) (l : list pgstore.Activity.t) :
  api.groupedActivities activities !! k = Some l ->
  l = filter (fun act => key act = k) activities /\ l <> [].
Proof.
  intros Hlook. split.
  - pose proof (grouped_lookup_from activities ∅ k) as H.
    change (fold_left step activities ∅) with (api.groupedActivities activities) in H.
    rewrite Hlook, lookup_empty in H. exact H.
  - apply (grouped_nonempty_from activities ∅) with (k := k); [ | exact Hlook ].
    intros k' l'. rewrite lookup_empty. discriminate.
Qed.

Lemma groupedActivities_permutation (activities : list pgstore.Activity.t) :
  mjoin (snd <$> map_to_list (api.groupedActivities activities)) ≡ₚ activities.
Proof.
  pose proof (grouped_permutation_from activities ∅) as H.
  rewrite map_to_list_empty in H. exact H.
Qed.

End Grouping.

Lemma fmap_join {A B : Type} (f : A -> B) (ls : list (list A)) :
  mjoin (fmap f <$> ls) = f <$> mjoin ls.
Proof.
  induction ls as [|l ls IH]; [reflexivity | ].
  cbn [fmap list_fmap mjoin list_join]. rewrite fmap_app. f_equal. exact IH.
Qed.

(** ** The date of a group *)

(** A four-digit year and a two-digit month or day are printed as digits
    that read back as the number. *)
Lemma appendInt_4_digits (x : Z) :
  0 <= x < 10000 ->
  exists a b c d : ascii,
    time.appendInt [] x 4 = [a; b; c; d]
    /\ forallb time.isDigit [a; b; c; d] = true
    /\ 1000 * time.digit_value a + 100 * time.digit_value b
       + 10 * time.digit_value c + time.digit_value d = x.
Proof.
  intros Hx.
  assert (Hall : forallb
            (fun n =>
               match time.appendInt [] (Z.of_nat n) 4 with
               | [a; b; c; d] =>
                   forallb time.isDigit [a; b; c; d]
                   && (1000 * time.digit_value a + 100 * time.digit_value b
                       + 10 * time.digit_value c + time.digit_value d =? Z.of_nat n)
               | _ => false
               end) (seq 0 (Z.to_nat 10000)) = true) by (vm_compute; reflexivity).
  rewrite forallb_forall in Hall.
  specialize (Hall (Z.to_nat x)). rewrite Z2Nat.id in Hall by lia.
  specialize (Hall ltac:(apply in_seq; lia)).
  destruct (time.appendInt [] x 4) as [|a [|b [|c [|d [|? ?]]]]]; try discriminate Hall.
  apply andb_true_iff in Hall as [Hdigits Hvalue].
  exists a, b, c, d. repeat split; [exact Hdigits | apply Z.eqb_eq, Hvalue].
Qed.

Lemma appendInt_2_digits (x : Z) :
  0 <= x < 100 ->
  exists a b : ascii,
    time.appendInt [] x 2 = [a; b]
    /\ forallb time.isDigit [a; b] = true
    /\ 10 * time.digit_value a + time.digit_value b = x.
Proof.
  intros Hx.
  assert (Hall : forallb
            (fun n =>
               match time.appendInt [] (Z.of_nat n) 2 with
               | [a; b] =>
                   forallb time.isDigit [a; b]
                   && (10 * time.digit_value a + time.digit_value b =? Z.of_nat n)
               | _ => false
               end) (seq 0 100) = true) by (vm_compute; reflexivity).
  rewrite forallb_forall in Hall.
  specialize (Hall (Z.to_nat x)). rewrite Z2Nat.id in Hall by lia.
  specialize (Hall ltac:(apply in_seq; lia)).
  destruct (time.appendInt [] x 2) as [|a [|b [|? ?]]]; try discriminate Hall.
  apply andb_true_iff in Hall as [Hdigits Hvalue].
  exists a, b. repeat split; [exact Hdigits | apply Z.eqb_eq, Hvalue].
Qed.

(** Parsing the date text of a date of the years 0 to 9999 gives the
    midnight of that date. *)
Lemma Parse_Format_DateOnly (t : time.Time) :
  0 <= time.Year t <= 9999 ->
  1 <= time.Month t <= 12 ->
  1 <= time.Day t <= time.daysIn (time.Month t) (time.Year t) ->
  time.Parse_DateOnly (time.Format_DateOnly t)
  = (time.Date (time.Year t) (time.Month t) (time.Day t) 0 0 0 0, None).
Proof.
  intros Hy Hm Hd.
  assert (Hd31 : time.daysIn (time.Month t) (time.Year t) <= 31).
  { unfold time.daysIn. destruct (time.Month t =? 2).
    - destruct (time.isLeap (time.Year t)); lia.
    - assert (Hb : 0 <= Z.land (time.Month t + Z.shiftr (time.Month t) 3) 1 <= 1).
      { rewrite Z.land_ones with (n := 1) by lia.
        pose proof (Z.mod_pos_bound (time.Month t + Z.shiftr (time.Month t) 3) (2 ^ 1)
                      ltac:(lia)). lia. }
      lia. }
  destruct (appendInt_4_digits (time.Year t) ltac:(lia))
    as (y1 & y2 & y3 & y4 & Ey & Dy & Vy).
  destruct (appendInt_2_digits (time.Month t) ltac:(lia)) as (m1 & m2 & Em & Dm & Vm).
  destruct (appendInt_2_digits (time.Day t) ltac:(lia)) as (d1 & d2 & Ed & Dd & Vd).
  unfold time.Parse_DateOnly, time.Format_DateOnly.
  rewrite list_ascii_of_string_of_list_ascii.
  rewrite !(appendInt_app (_ ++ _)), Ey, Em, Ed. cbn [app].
  cbn [forallb] in Dy, Dm, Dd |- *.
  repeat match goal with
         | H : _ && _ = true |- _ => apply andb_true_iff in H as [? ?]
         end.
  repeat match goal with
         | H : time.isDigit ?c = true |- context [time.isDigit ?c] => rewrite H
         end.
  cbn [andb Ascii.eqb Bool.eqb]. rewrite Vy, Vm, Vd.
  destruct (Z.leb_spec (time.Month t) 0); [lia | ].
  destruct (Z.ltb_spec 12 (time.Month t)); [lia | ].
  destruct (Z.ltb_spec (time.Day t) 1); [lia | ].
  destruct (Z.ltb_spec (time.daysIn (time.Month t) (time.Year t)) (time.Day t)); [lia | ].
  reflexivity.
Qed.

Section ListActivities.
Context {W : Type} {Store : api.store W} {Codec : uuid.Codec} {Order : runtime.MapOrder}.

(** Where a listed activity comes from: its group stands for one date text
    of the map, the activity is one of the stored ones, and its date text is
    that of the group. *)
Lemma listed_origin (activities : list pgstore.Activity.t) (i : nat)
    (g : spec.GetTripActivitiesResponseOuterArray.t)
    (x : spec.GetTripActivitiesResponseInnerArray.t) :
  runtime.fair Order ->
  api.outputActivities (api.groupedActivities activities) !! i = Some g ->
  x ∈ spec.GetTripActivitiesResponseOuterArray.Activities g ->
  exists (k : string) (act : pgstore.Activity.t),
    (fst <$> runtime.range (api.groupedActivities activities)) !! i = Some k
    /\ spec.GetTripActivitiesResponseOuterArray.Date g = fst (time.Parse_DateOnly k)
    /\ act ∈ activities
    /\ time.Format_DateOnly (pgtype.Time (pgstore.Activity.OccursAt act)) = k
    /\ spec.GetTripActivitiesResponseInnerArray.OccursAt x
       = pgtype.Time (pgstore.Activity.OccursAt act).
Proof.
  intros Hfair Hi Hx.
  set (G := api.groupedActivities activities) in *.
  unfold api.outputActivities in Hi. rewrite list_lookup_fmap in Hi.
  destruct (runtime.range G !! i) as [[k l]|] eqn:Hl; [ | discriminate Hi ].
  apply Some_inj in Hi. subst g.
  destruct (time.Parse_DateOnly k) as [date e] eqn:Hparse.
  cbn [spec.GetTripActivitiesResponseOuterArray.Activities
       spec.GetTripActivitiesResponseOuterArray.Date] in *.
  unfold api.innerActs in Hx. apply list_elem_of_fmap in Hx as (act & -> & Hact).
  assert (Hin : (k, l) ∈ map_to_list G).
  { rewrite <- (Hfair _ G). eapply list_elem_of_lookup_2, Hl. }
  apply elem_of_map_to_list in Hin.
  destruct (groupedActivities_lookup activities k l Hin) as [Hl' _].
  rewrite Hl' in Hact. apply list_elem_of_filter in Hact as [Hk Hact].
  exists k, act. rewrite list_lookup_fmap, Hl, Hparse. repeat split; assumption.
Qed.

(** The date of the group of a listed activity is the midnight of the
    calendar date of the activity, when that is a day that exists in a year
    of four digits. *)
Lemma ListActivities_group_date (activities : list pgstore.Activity.t) (i : nat)
    (g : spec.GetTripActivitiesResponseOuterArray.t)
    (x : spec.GetTripActivitiesResponseInnerArray.t) :
  runtime.fair Order ->
  api.outputActivities (api.groupedActivities activities) !! i = Some g ->
  x ∈ spec.GetTripActivitiesResponseOuterArray.Activities g ->
  time.dated (spec.GetTripActivitiesResponseInnerArray.OccursAt x) ->
  spec.GetTripActivitiesResponseOuterArray.Date g
  = time.midnight (spec.GetTripActivitiesResponseInnerArray.OccursAt x).
Proof.
  intros Hfair Hi Hx Hdated.
  destruct (listed_origin activities i g x Hfair Hi Hx)
    as (k & act & _ & -> & Hact & <- & Hat).
  rewrite Hat in Hdated |- *. destruct Hdated as (Hy & Hm & Hd).
  rewrite Parse_Format_DateOnly by assumption. reflexivity.
Qed.

(** C6. The activities the store returns for a trip are listed in groups
    that depend on the calendar date alone.  Every stored activity is in the
    listing, once, as the entry with the text of its ID, its title and its
    time; two listed activities of one calendar date (whatever their times
    of day) are in the same group, and two of different calendar dates are
    in different groups; and the date of a group is the midnight of the
    calendar date of its activities (for days that exist, in the years 0 to
    9999). *)
Theorem ListActivities_groups_by_calendar_date (r : http.Request) (tripID : string)
    (id : uuid.UUID) (a : api.API W) (activities : list pgstore.Activity.t) (w' : W) :
  runtime.fair Order ->
  uuid.Parse tripID = (id, None) ->
  api.GetTripActivities id (api.world a) = ((activities, None), w') ->
  Forall (fun act => time.civil (pgtype.Time (pgstore.Activity.OccursAt act))) activities ->
  exists groups : list spec.GetTripActivitiesResponseOuterArray.t,
    fst (api.GetTripsTripIDActivities r tripID a)
    = api.Return
        {| spec.body :=
             spec.OfGetTripActivitiesResponse
               {| spec.GetTripActivitiesResponse.Activities := groups |};
           spec.Code := 200 |}
    /\ mjoin (spec.GetTripActivitiesResponseOuterArray.Activities <$> groups)
       ≡ₚ activity_entry <$> activities
    /\ (forall act : pgstore.Activity.t,
          act ∈ activities ->
          exists g : spec.GetTripActivitiesResponseOuterArray.t,
            g ∈ groups
            /\ activity_entry act ∈ spec.GetTripActivitiesResponseOuterArray.Activities g)
    /\ forall (i j : nat) (gi gj : spec.GetTripActivitiesResponseOuterArray.t)
         (x y : spec.GetTripActivitiesResponseInnerArray.t),
         groups !! i = Some gi ->
         groups !! j = Some gj ->
         x ∈ spec.GetTripActivitiesResponseOuterArray.Activities gi ->
         y ∈ spec.GetTripActivitiesResponseOuterArray.Activities gj ->
         (i = j <->
          time.calendar_date (spec.GetTripActivitiesResponseInnerArray.OccursAt x)
          = time.calendar_date (spec.GetTripActivitiesResponseInnerArray.OccursAt y))
         /\ (time.dated (spec.GetTripActivitiesResponseInnerArray.OccursAt x) ->
             spec.GetTripActivitiesResponseOuterArray.Date gi
             = time.midnight (spec.GetTripActivitiesResponseInnerArray.OccursAt x)).
Proof.
  intros Hfair Hparse Hget Hcivil.
  unfold api.GetTripsTripIDActivities. rewrite Hparse.
  unfold mbind, api.M_bind, api.bind, api.call. rewrite Hget.
  eexists. split; [reflexivity | ].
  set (G := api.groupedActivities activities).
  pose proof (Hfair _ G) as Hperm.
  assert (Hall : mjoin (spec.GetTripActivitiesResponseOuterArray.Activities
                          <$> api.outputActivities G)
                 ≡ₚ activity_entry <$> activities).
  { unfold api.outputActivities. rewrite <- list_fmap_compose.
    rewrite (list_fmap_ext _ (fmap activity_entry ∘ snd) (runtime.range G)).
    - rewrite list_fmap_compose.
      rewrite (fmap_join _ (snd <$> runtime.range G)).
      apply fmap_Permutation.
      rewrite Hperm. apply groupedActivities_permutation.
    - intros ? [k l] _. cbn. destruct (time.Parse_DateOnly k). reflexivity. }
  split; [exact Hall | split].
  - intros act Hact.
    assert (Hin : activity_entry act
                  ∈ mjoin (spec.GetTripActivitiesResponseOuterArray.Activities
                             <$> api.outputActivities G)).
    { rewrite Hall. apply list_elem_of_fmap. exists act. split; [reflexivity | exact Hact]. }
    apply list_elem_of_join in Hin as (l & Hl & Hg).
    apply list_elem_of_fmap in Hg as (g & -> & Hg).
    exists g. split; assumption.
  - intros i j gi gj x y Hi Hj Hx Hy.
    split; [ | intros Hdated; exact (ListActivities_group_date activities i gi x
                                       Hfair Hi Hx Hdated) ].
    destruct (listed_origin activities i gi x Hfair Hi Hx)
      as (ki & ax & Hki & _ & Hax & Hkx & ->).
    destruct (listed_origin activities j gj y Hfair Hj Hy)
      as (kj & ay & Hkj & _ & Hay & Hky & ->).
    rewrite Forall_forall in Hcivil.
    split.
    + intros <-. apply Format_DateOnly_inj; [apply Hcivil, Hax | apply Hcivil, Hay | ].
      fold G in Hki, Hkj. congruence.
    + intros Hdate. apply Format_DateOnly_of_date in Hdate.
      assert (Hnodup : NoDup (fst <$> runtime.range G)).
      { rewrite Hperm. apply NoDup_fst_map_to_list. }
      eapply NoDup_lookup; [exact Hnodup | exact Hki | fold G in Hkj; congruence].
Qed.

End ListActivities.

Lemma ListActivities_groups_by_calendar_date_witness :
  let a := journey.start false sample.planned sample.quiet in
  runtime.fair fixture.order
  /\ Forall (fun act => time.civil (pgtype.Time (pgstore.Activity.OccursAt act)))
       sample.plans
  /\ exists groups : list spec.GetTripActivitiesResponseOuterArray.t,
       fst (api.GetTripsTripIDActivities (fixture.request "") sample.trip_id a)
       = api.Return
           (spec.GetTripsTripIDActivitiesJSON200Response
              {| spec.GetTripActivitiesResponse.Activities := groups |})
       /\ mjoin (spec.GetTripActivitiesResponseOuterArray.Activities <$> groups)
          ≡ₚ activity_entry <$> sample.plans
       /\ (forall act : pgstore.Activity.t,
             act ∈ sample.plans ->
             exists g : spec.GetTripActivitiesResponseOuterArray.t,
               g ∈ groups
               /\ activity_entry act
                  ∈ spec.GetTripActivitiesResponseOuterArray.Activities g)
       /\ forall (i j : nat) (gi gj : spec.GetTripActivitiesResponseOuterArray.t)
            (x y : spec.GetTripActivitiesResponseInnerArray.t),
            groups !! i = Some gi ->
            groups !! j = Some gj ->
            x ∈ spec.GetTripActivitiesResponseOuterArray.Activities gi ->
            y ∈ spec.GetTripActivitiesResponseOuterArray.Activities gj ->
            (i = j <->
             time.calendar_date (spec.GetTripActivitiesResponseInnerArray.OccursAt x)
             = time.calendar_date (spec.GetTripActivitiesResponseInnerArray.OccursAt y))
            /\ (time.dated (spec.GetTripActivitiesResponseInnerArray.OccursAt x) ->
                spec.GetTripActivitiesResponseOuterArray.Date gi
                = time.midnight (spec.GetTripActivitiesResponseInnerArray.OccursAt x)).
Proof.
  intros a.
  assert (Hfair : runtime.fair fixture.order) by (intros V m; reflexivity).
  assert (Hcivil : Forall (fun act => time.civil (pgtype.Time (pgstore.Activity.OccursAt act)))
                     sample.plans)
    by (repeat constructor; cbn; lia).
  split; [exact Hfair | split; [exact Hcivil | ]].
  exact (ListActivities_groups_by_calendar_date (fixture.request "") sample.trip_id 1%N a
           sample.plans
           {| journey.db := pgstore.record (pgstore.ExecGetTripActivities 1%N) sample.planned;
              journey.server := sample.quiet |}
           Hfair eq_refl eq_refl Hcivil).
Defined.

(** The listing of the sample trip: the two activities of June 2 together,
    the one of June 3 apart. *)
Example ListActivities_sample :
  match fst (api.GetTripsTripIDActivities (fixture.request "") sample.trip_id
               (journey.start false sample.planned sample.quiet)) with
  | api.Return {| spec.body := spec.OfGetTripActivitiesResponse output |} =>
      (fun g =>
         (time.calendar_date (spec.GetTripActivitiesResponseOuterArray.Date g),
          spec.GetTripActivitiesResponseInnerArray.Title
            <$> spec.GetTripActivitiesResponseOuterArray.Activities g))
        <$> spec.GetTripActivitiesResponse.Activities output
  | _ => []
  end
  = [((2025, 6, 3), ["Versailles"]); ((2025, 6, 2), ["Dinner"; "Louvre"])].
Proof. vm_compute. reflexivity. Qed.

(** ** Notifying the participants of a confirmed trip *)

Section SendTripConfirmedEmails.
Context {Addresses : mail.AddressParser}.

Lemma send_succeeds_later (b : bool) (dial : list bool) (i : nat)
    (p : pgstore.Participant.t) :
  send_succeeds (b :: dial) (S i) p = send_succeeds dial i p.
Proof. reflexivity. Qed.

Lemma send_succeeds_nil (i j : nat) (p : pgstore.Participant.t) :
  send_succeeds [] i p = send_succeeds [] j p.
Proof. unfold send_succeeds. destruct i, j; reflexivity. Qed.

(** The loop: it delivers to the participants in order, up to the first
    send that fails, and to nobody from there on. *)
Lemma SendTripConfirmedEmails_loop_prefix (client : mail.Client)
    (participants : list pgstore.Participant.t) (w : journey.World) :
  let '(err, w') := mailpit.SendTripConfirmedEmails_loop client participants w in
  journey.db w' = journey.db w
  /\ exists k : nat,
       mail.inbox (journey.server w')
       = mail.inbox (journey.server w) ++ (confirmation_for <$> take k participants)
       /\ (forall i p, (i < k)%nat -> participants !! i = Some p ->
             send_succeeds (mail.dial (journey.server w)) i p = true)
       /\ match err with
          | None => k = length participants
          | Some _ =>
              exists p, participants !! k = Some p
                        /\ send_succeeds (mail.dial (journey.server w)) k p = false
          end.
Proof.
  revert w. induction participants as [|p participants IH]; intros w.
  { cbn. split; [reflexivity | ]. exists 0%nat.
    rewrite app_nil_r. repeat split. intros i q Hi. lia. }
  cbn [mailpit.SendTripConfirmedEmails_loop]. unfold mail.From, mail.To.
  destruct (mail.ParseAddress "mailpit@journey.com") as [e|] eqn:Hfrom.
  { split; [reflexivity | ]. exists 0%nat. cbn [take fmap list_fmap].
    rewrite app_nil_r. repeat split; [intros i q Hi; lia | ].
    exists p. split; [reflexivity | ]. unfold send_succeeds. rewrite Hfrom. reflexivity. }
  cbn [mail.from mail.to mail.subject mail.bodyString mail.NewMsg].
  destruct (mail.ParseAddress (pgstore.Participant.Email p)) as [e|] eqn:Hto.
  { split; [reflexivity | ]. exists 0%nat. cbn [take fmap list_fmap].
    rewrite app_nil_r. repeat split; [intros i q Hi; lia | ].
    exists p. split; [reflexivity | ].
    unfold send_succeeds. rewrite Hfrom, Hto. reflexivity. }
  unfold mail.Subject, mail.SetBodyString.
  cbn [mail.from mail.to mail.subject mail.bodyString].
  fold (confirmation_for p).
  unfold mail.DialAndSend, journey.transport, mail.deliver.
  assert (Hhere : forall dial, send_succeeds dial 0 p = nth 0 dial true).
  { intros dial. unfold send_succeeds. rewrite Hfrom, Hto. reflexivity. }
  destruct (mail.dial (journey.server w)) as [|[|] rest] eqn:Hdial.
  - (* no failure scheduled: delivered *)
    specialize (IH {| journey.db := journey.db w;
                      journey.server :=
                        {| mail.inbox := mail.inbox (journey.server w) ++ [confirmation_for p];
                           mail.dial := [] |} |}).
    destruct (mailpit.SendTripConfirmedEmails_loop client participants _) as [err w'].
    cbn [journey.db journey.server mail.inbox mail.dial] in IH.
    destruct IH as (Hdb & k & Hinbox & Hbefore & Hstop).
    split; [exact Hdb | ]. exists (S k).
    rewrite Hinbox. cbn [take fmap list_fmap]. rewrite <- app_assoc.
    repeat split.
    + intros [|i] q Hi Hq.
      * injection Hq as <-. rewrite Hhere. reflexivity.
      * rewrite (send_succeeds_nil (S i) i). apply Hbefore; [lia | exact Hq].
    + destruct err as [e|].
      * destruct Hstop as (q & Hq & Hfail). exists q. split; [exact Hq | ].
        rewrite (send_succeeds_nil (S k) k). exact Hfail.
      * cbn [length]. lia.
  - (* the connection succeeds: delivered *)
    specialize (IH {| journey.db := journey.db w;
                      journey.server :=
                        {| mail.inbox := mail.inbox (journey.server w) ++ [confirmation_for p];
                           mail.dial := rest |} |}).
    destruct (mailpit.SendTripConfirmedEmails_loop client participants _) as [err w'].
    cbn [journey.db journey.server mail.inbox mail.dial] in IH.
    destruct IH as (Hdb & k & Hinbox & Hbefore & Hstop).
    split; [exact Hdb | ]. exists (S k).
    rewrite Hinbox. cbn [take fmap list_fmap]. rewrite <- app_assoc.
    repeat split.
    + intros [|i] q Hi Hq.
      * injection Hq as <-. rewrite Hhere. reflexivity.
      * rewrite send_succeeds_later. apply Hbefore; [lia | exact Hq].
    + destruct err as [e|].
      * destruct Hstop as (q & Hq & Hfail). exists q. split; [exact Hq | ].
        rewrite send_succeeds_later. exact Hfail.
      * cbn [length]. lia.
  - (* the connection fails: the loop returns *)
    cbn [journey.db journey.server mail.inbox].
    split; [reflexivity | ]. exists 0%nat. cbn [take fmap list_fmap].
    rewrite app_nil_r. repeat split; [intros i q Hi; lia | ].
    exists p. split; [reflexivity | ]. rewrite Hhere. reflexivity.
Qed.

(** C10. Once the participants are read from the store, the emails go out
    one after the other in the order of that list, and the function returns
    at the first send that fails: it returns nil exactly when every send goes
    through; the participants before the first failing send have their
    email, and nobody from the failing one onwards has one. *)
Theorem SendTripConfirmedEmails_stops_at_first_failure (tripId : uuid.UUID)
    (w : journey.World) (participants : list pgstore.Participant.t) (d : pgstore.DB) :
  pgstore.GetParticipants tripId (journey.db w) = ((participants, None), d) ->
  let '(err, w') := mailpit.SendTripConfirmedEmails tripId w in
  let ok := send_succeeds (mail.dial (journey.server w)) in
  (err = None <-> forall i p, participants !! i = Some p -> ok i p = true)
  /\ exists k : nat,
       mail.inbox (journey.server w')
       = mail.inbox (journey.server w) ++ (confirmation_for <$> take k participants)
       /\ (forall i p, (i < k)%nat -> participants !! i = Some p -> ok i p = true)
       /\ (err = None -> k = length participants)
       /\ (err <> None ->
           exists p, participants !! k = Some p /\ ok k p = false).
Proof.
  intros Hget.
  unfold mailpit.SendTripConfirmedEmails.
  cbn [mailpit.GetParticipants journey.mailpit_store]. unfold journey.query.
  rewrite Hget.
  change (mail.NewClient "mailpit" [mail.WithTLSPortPolicy mail.NoTLS; mail.WithPort 1025])
    with ({| mail.host := "mailpit"; mail.port := 1025; mail.tlspolicy := mail.NoTLS |},
          @None error).
  cbv iota beta.
  pose proof (SendTripConfirmedEmails_loop_prefix
                {| mail.host := "mailpit"; mail.port := 1025; mail.tlspolicy := mail.NoTLS |}
                participants {| journey.db := d; journey.server := journey.server w |}) as H.
  destruct (mailpit.SendTripConfirmedEmails_loop _ participants _) as [err w'].
  cbn [journey.db journey.server] in H.
  destruct H as (_ & k & Hinbox & Hbefore & Hstop).
  split.
  - split.
    + intros ->. intros i p Hp. apply Hbefore; [ | exact Hp ].
      rewrite Hstop. eapply lookup_lt_Some, Hp.
    + intros Hall. destruct err as [e|]; [ | reflexivity ].
      destruct Hstop as (p & Hp & Hfail). rewrite (Hall k p Hp) in Hfail. discriminate.
  - exists k. repeat split; try assumption.
    + intros ->. exact Hstop.
    + intros Hne. destruct err as [e|]; [exact Hstop | contradiction].
Qed.

End SendTripConfirmedEmails.

Lemma SendTripConfirmedEmails_stops_at_first_failure_witness :
  let w := {| journey.db := sample.invited;
              journey.server := {| mail.inbox := []; mail.dial := [true; false] |} |} in
  let '(err, w') := mailpit.SendTripConfirmedEmails 1%N w in
  pgstore.Participant.Email <$> fst (fst (pgstore.GetParticipants 1%N sample.invited))
  = ["c@x.com"; "d@x.com"; "b@x.com"]
  /\ err <> None
  /\ mail.to <$> mail.inbox (journey.server w') = [["c@x.com"]].
Proof.
  intros w.
  pose proof (SendTripConfirmedEmails_stops_at_first_failure 1%N w
                [sample.guest 8%N "c@x.com"; sample.guest 9%N "d@x.com"; sample.bob]
                (pgstore.record (pgstore.ExecGetParticipants 1%N) sample.invited)
                eq_refl) as H.
  destruct (mailpit.SendTripConfirmedEmails 1%N w) as [err w'] eqn:E.
  destruct H as [Hiff _].
  split; [reflexivity | split].
  - intros Hnone. destruct Hiff as [Hall _].
    specialize (Hall Hnone 1%nat (sample.guest 9%N "d@x.com") eq_refl).
    vm_compute in Hall. discriminate Hall.
  - vm_compute in E. injection E as <- <-. reflexivity.
Defined.

(** * More of the handlers and of the notifier *)

(** One step through a handler: a case on the next call it makes. *)
Ltac handler_step :=
  match goal with
  | |- context [uuid.Parse ?s] => destruct (uuid.Parse s) as [? [?|]] eqn:?
  | |- context [json.Decode ?s] => destruct (json.Decode s) as [?|?] eqn:?
  | |- context [validator.Struct ?b] => destruct (validator.Struct b) as [?|] eqn:?
  | |- context [api.GetParticipant ?i ?w] =>
      destruct (api.GetParticipant i w) as [[? [?|]] ?] eqn:?
  | |- context [api.ConfirmParticipant ?i ?w] =>
      destruct (api.ConfirmParticipant i w) as [[?|] ?] eqn:?
  | |- context [api.GetTrip ?i ?w] => destruct (api.GetTrip i w) as [[? [?|]] ?] eqn:?
  | |- context [api.UpdateTrip ?p ?w] => destruct (api.UpdateTrip p w) as [[?|] ?] eqn:?
  | |- context [api.CreateTrip ?b ?w] => destruct (api.CreateTrip b w) as [[? [?|]] ?] eqn:?
  | |- context [api.GetTripActivities ?i ?w] =>
      destruct (api.GetTripActivities i w) as [[? [?|]] ?] eqn:?
  | |- context [api.CreateActivity ?p ?w] =>
      destruct (api.CreateActivity p w) as [[? [?|]] ?] eqn:?
  | |- context [api.GetTripLinks ?i ?w] =>
      destruct (api.GetTripLinks i w) as [[? [?|]] ?] eqn:?
  | |- context [api.SendConfirmTripEmailToTripOwner ?i ?w] =>
      destruct (api.SendConfirmTripEmailToTripOwner i w) as [[?|] ?] eqn:?
  | |- context [errors_Is ?e ErrNoRows] => destruct (errors_Is e ErrNoRows) eqn:?
  | |- context [pgstore.Participant.IsConfirmed ?p] =>
      destruct (pgstore.Participant.IsConfirmed p) eqn:?
  | |- context [api.eager ?a] => destruct (api.eager a) eqn:?
  end;
  cbn [fst snd api.world api.logger api.launched api.eager].

Ltac handler_unfold :=
  unfold api.PatchParticipantsParticipantIDConfirm, api.PostTrips, api.GetTripsTripID,
    api.PutTripsTripID, api.GetTripsTripIDActivities, api.PostTripsTripIDActivities,
    api.GetTripsTripIDLinks, api.go, api.run;
  unfold mbind, api.M_bind, api.bind, api.call, api.ret, api.logger_Error;
  cbn [fst snd api.world api.logger api.launched api.eager].

Ltac handler_cases := handler_unfold; repeat handler_step.

Section Handlers_any_store.
Context {W : Type} {Store : api.store W} {Mailer : api.mailer W}.
Context {Codec : uuid.Codec} {Order : runtime.MapOrder}.
Context {DecodeCreateTrip : json.Decoder spec.CreateTripRequest.t}
        {DecodeUpdateTrip : json.Decoder spec.UpdateTripRequest.t}
        {DecodeCreateActivity : json.Decoder spec.CreateActivityRequest.t}.
Context {ValidateCreateTrip : validator.Validate spec.CreateTripRequest.t}
        {ValidateUpdateTrip : validator.Validate spec.UpdateTripRequest.t}
        {ValidateCreateActivity : validator.Validate spec.CreateActivityRequest.t}.

(** X1. Every implemented handler returns, and with its success status or
    with 400: no request, no store and no mailer gets a 404 or a 500 out of
    them. *)
Theorem handlers_status_codes (r : http.Request) (id : string) (a : api.API W) :
  answers [204; 400] (api.PatchParticipantsParticipantIDConfirm r id) a
  /\ answers [201; 400] (api.PostTrips r) a
  /\ answers [200; 400] (api.GetTripsTripID r id) a
  /\ answers [204; 400] (api.PutTripsTripID r id) a
  /\ answers [200; 400] (api.GetTripsTripIDActivities r id) a
  /\ answers [201; 400] (api.PostTripsTripIDActivities r id) a
  /\ answers [200; 400] (api.GetTripsTripIDLinks r id) a.
Proof.
  unfold answers.
  repeat split; handler_cases;
    (eexists; split; [reflexivity | cbn [spec.Code
       spec.PatchParticipantsParticipantIDConfirmJSON204Response
       spec.PatchParticipantsParticipantIDConfirmJSON400Response
       spec.PostTripsJSON201Response spec.PostTripsJSON400Response
       spec.GetTripsTripIDJSON200Response spec.GetTripsTripIDJSON400Response
       spec.PutTripsTripIDJSON204Response spec.PutTripsTripIDJSON400Response
       spec.GetTripsTripIDActivitiesJSON200Response
       spec.GetTripsTripIDActivitiesJSON400Response
       spec.PostTripsTripIDActivitiesJSON201Response
       spec.PostTripsTripIDActivitiesJSON400Response
       spec.GetTripsTripIDLinksJSON200Response
       spec.GetTripsTripIDLinksJSON400Response]; set_solver]).
Qed.


(** X3. An identifier that does not parse is rejected before the store is
    reached: each of the six handlers that take an identifier answers 400
    ("uuid inválido" for a participant, "invalid trip id" for a trip) and
    leaves the world as it was. *)
Theorem malformed_id_rejected_before_the_store (r : http.Request) (id : string)
    (x : uuid.UUID) (err : error) (a : api.API W) :
  uuid.Parse id = (x, Some err) ->
  rejects "uuid inválido" (api.PatchParticipantsParticipantIDConfirm r id) a
  /\ rejects "invalid trip id" (api.GetTripsTripID r id) a
  /\ rejects "invalid trip id" (api.PutTripsTripID r id) a
  /\ rejects "invalid trip id" (api.GetTripsTripIDActivities r id) a
  /\ rejects "invalid trip id" (api.PostTripsTripIDActivities r id) a
  /\ rejects "invalid trip id" (api.GetTripsTripIDLinks r id) a.
Proof.
  intros Hparse. unfold rejects.
  repeat apply conj; handler_unfold; rewrite Hparse; reflexivity.
Qed.

(** X4. A trip creation request whose body does not decode, or does not
    pass validation, is answered 400 and changes nothing at all: the store is
    not called, nothing is logged, and no goroutine (hence no email) is
    started. *)
Theorem PostTrips_bad_request_changes_nothing (r : http.Request) (a : api.API W) :
  (forall body : spec.CreateTripRequest.t,
     json.Decode (http.Body r) = inl body -> validator.Struct body <> None) ->
  snd (api.PostTrips r a) = a
  /\ exists msg : string,
       fst (api.PostTrips r a)
       = api.Return
           {| spec.body := spec.OfError {| spec.Error.Message := msg |};
              spec.Code := 400 |}
       /\ (msg = "invalid JSON" \/ exists e : error, msg = "invalid input: " +:+ Error e).
Proof.
  intros Hbad. unfold api.PostTrips.
  destruct (json.Decode (http.Body r)) as [body|e] eqn:Hdec.
  - specialize (Hbad body eq_refl).
    destruct (validator.Struct body) as [e|]; [ | contradiction ].
    split; [reflexivity | ]. eexists. split; [reflexivity | ]. right. eauto.
  - split; [reflexivity | ]. eexists. split; [reflexivity | ]. left. reflexivity.
Qed.

(** X5. No handler puts the text of a store error or of a mailer error in a
    response: the message of an error response is one of seven fixed texts,
    or "invalid input: " followed by what the validator holds against the
    body of that request. *)
Theorem error_responses_carry_fixed_texts (r : http.Request) (id : string)
    (a : api.API W) :
  error_texts_fixed [] (api.PatchParticipantsParticipantIDConfirm r id) a
  /\ error_texts_fixed (validation spec.CreateTripRequest.t r) (api.PostTrips r) a
  /\ error_texts_fixed [] (api.GetTripsTripID r id) a
  /\ error_texts_fixed (validation spec.UpdateTripRequest.t r) (api.PutTripsTripID r id) a
  /\ error_texts_fixed [] (api.GetTripsTripIDActivities r id) a
  /\ error_texts_fixed (validation spec.CreateActivityRequest.t r)
       (api.PostTripsTripIDActivities r id) a
  /\ error_texts_fixed [] (api.GetTripsTripIDLinks r id) a.
Proof.
  unfold error_texts_fixed, validation.
  repeat apply conj; handler_cases; intros resp msg [= <-]; unfold error_message;
    cbn [spec.body spec.Error.Message api.Message
         spec.PatchParticipantsParticipantIDConfirmJSON204Response
         spec.PatchParticipantsParticipantIDConfirmJSON400Response
         spec.PostTripsJSON201Response spec.PostTripsJSON400Response
         spec.GetTripsTripIDJSON200Response spec.GetTripsTripIDJSON400Response
         spec.PutTripsTripIDJSON204Response spec.PutTripsTripIDJSON400Response
         spec.GetTripsTripIDActivitiesJSON200Response
         spec.GetTripsTripIDActivitiesJSON400Response
         spec.PostTripsTripIDActivitiesJSON201Response
         spec.PostTripsTripIDActivitiesJSON400Response
         spec.GetTripsTripIDLinksJSON200Response
         spec.GetTripsTripIDLinksJSON400Response];
    intros [= <-];
    first [ left; unfold fixed_messages;
            solve [ repeat first [ apply list_elem_of_here | apply list_elem_of_further ] ]
          | right; eexists; split; [apply list_elem_of_here | reflexivity] ].
Qed.

(** X6. An update request reaches the store's UpdateTrip only when the trip
    was found and the body decodes and validates.  Otherwise the answer is
    400 and the world is the one the lookup left; the lookup comes first, so
    a malformed body for a trip that does not exist is answered "trip not
    found". *)
Theorem PutTripsTripID_updates_only_valid_requests (r : http.Request) (tripID : string)
    (id : uuid.UUID) (trip : pgstore.Trip.t) (err : option error) (w1 : W)
    (a : api.API W) :
  uuid.Parse tripID = (id, None) ->
  api.GetTrip id (api.world a) = ((trip, err), w1) ->
  err <> None
  \/ (forall body : spec.UpdateTripRequest.t,
        json.Decode (http.Body r) = inl body -> validator.Struct body <> None) ->
  api.world (snd (api.PutTripsTripID r tripID a)) = w1
  /\ exists msg : string,
       fst (api.PutTripsTripID r tripID a)
       = api.Return
           {| spec.body := spec.OfError {| spec.Error.Message := msg |};
              spec.Code := 400 |}
       /\ match err with
          | Some e =>
              msg = if errors_Is e ErrNoRows then "trip not found"
                    else "something went wrong, try again"
          | None =>
              msg = "invalid JSON" \/ exists e : error, msg = "invalid input: " +:+ Error e
          end.
Proof.
  intros Hparse Hget Hbad. unfold api.PutTripsTripID. rewrite Hparse.
  unfold mbind, api.M_bind, api.bind, api.call. rewrite Hget.
  destruct err as [e|].
  - destruct (errors_Is e ErrNoRows); (split; [reflexivity | eexists; split; reflexivity]).
  - destruct Hbad as [Hbad|Hbad]; [contradiction | ].
    destruct (json.Decode (http.Body r)) as [body|e] eqn:Hdec.
    + specialize (Hbad body eq_refl).
      destruct (validator.Struct body) as [e|]; [ | contradiction ].
      split; [reflexivity | ]. eexists. split; [reflexivity | ]. right. eauto.
    + split; [reflexivity | ]. eexists. split; [reflexivity | ]. left. reflexivity.
Qed.

(** X7. When the trip is found and the body is valid, the store's UpdateTrip
    is called once, with the destination and the dates of the body and the
    is-confirmed of the trip just read; the answer is 204 when it returns
    nil, and otherwise the generic 400, with the error in the log. *)
Theorem PutTripsTripID_hands_over_what_it_read (r : http.Request) (tripID : string)
    (id : uuid.UUID) (trip : pgstore.Trip.t) (body : spec.UpdateTripRequest.t)
    (w1 : W) (a : api.API W) :
  uuid.Parse tripID = (id, None) ->
  api.GetTrip id (api.world a) = ((trip, None), w1) ->
  json.Decode (http.Body r) = inl body ->
  validator.Struct body = None ->
  let '(err, w2) := api.UpdateTrip (update_of id body trip) w1 in
  api.PutTripsTripID r tripID a
  = (api.Return
       match err with
       | None => {| spec.body := spec.Nil; spec.Code := 204 |}
       | Some _ =>
           {| spec.body :=
                spec.OfError {| spec.Error.Message := "something went wrong, try again" |};
              spec.Code := 400 |}
       end,
     {| api.world := w2;
        api.logger :=
          api.logger a
          ++ match err with
             | None => []
             | Some e =>
                 [{| zap.Message := "failed to update trip";
                     zap.Fields := [zap.Error e] |}]
             end;
        api.launched := api.launched a;
        api.eager := api.eager a |}).
Proof.
  intros Hparse Hget Hdec Hval.
  destruct (api.UpdateTrip (update_of id body trip) w1) as [err w2] eqn:Hupdate.
  unfold api.PutTripsTripID. rewrite Hparse.
  unfold mbind, api.M_bind, api.bind, api.call at 1. rewrite Hget.
  cbv beta iota. rewrite Hdec, Hval.
  unfold api.call; cbn [api.world api.logger api.launched api.eager].
  unfold update_of in Hupdate. rewrite Hupdate.
  destruct err as [e|]; cbn; [reflexivity | rewrite app_nil_r; reflexivity].
Qed.

(** X8. A participant confirmation is answered 204 exactly when the
    identifier parses, the lookup returns an unconfirmed participant without
    error and the update returns nil; the world is then the one the update
    left, and nothing is logged. *)
Theorem PatchParticipant_succeeds_exactly_when (r : http.Request)
    (participantID : string) (a : api.API W) :
  fst (api.PatchParticipantsParticipantIDConfirm r participantID a)
  = api.Return {| spec.body := spec.Nil; spec.Code := 204 |}
  <-> exists (id : uuid.UUID) (participant : pgstore.Participant.t) (w1 w2 : W),
        uuid.Parse participantID = (id, None)
        /\ api.GetParticipant id (api.world a) = ((participant, None), w1)
        /\ pgstore.Participant.IsConfirmed participant = false
        /\ api.ConfirmParticipant id w1 = (None, w2)
        /\ snd (api.PatchParticipantsParticipantIDConfirm r participantID a)
           = {| api.world := w2; api.logger := api.logger a;
                api.launched := api.launched a; api.eager := api.eager a |}.
Proof.
  split.
  - handler_cases; intros [=];
      eexists _, _, _, _; repeat split; first [eassumption | reflexivity].
  - intros (id & participant & w1 & w2 & Hparse & Hget & Hconf & Hupdate & _).
    unfold api.PatchParticipantsParticipantIDConfirm. rewrite Hparse.
    unfold mbind, api.M_bind, api.bind, api.call. rewrite Hget, Hconf.
    cbn [api.world]. rewrite Hupdate. reflexivity.
Qed.

(** X9. The links the store returns for a trip are listed one entry for
    each, in the store's order, with the text of the link's ID, its title and
    its URL; the world is the one the query left and nothing is logged. *)
Theorem GetTripsTripIDLinks_lists_in_store_order (r : http.Request) (tripID : string)
    (id : uuid.UUID) (links : list pgstore.Link.t) (w1 : W) (a : api.API W) :
  uuid.Parse tripID = (id, None) ->
  api.GetTripLinks id (api.world a) = ((links, None), w1) ->
  exists listed : list spec.GetLinksResponseArray.t,
    api.GetTripsTripIDLinks r tripID a
    = (api.Return
         {| spec.body := spec.OfGetLinksResponse {| spec.GetLinksResponse.Links := listed |};
            spec.Code := 200 |},
       {| api.world := w1; api.logger := api.logger a;
          api.launched := api.launched a; api.eager := api.eager a |})
    /\ length listed = length links
    /\ forall i : nat, listed !! i = link_entry <$> links !! i.
Proof.
  intros Hparse Hget. unfold api.GetTripsTripIDLinks. rewrite Hparse.
  unfold mbind, api.M_bind, api.bind, api.call. rewrite Hget.
  eexists. split; [reflexivity | ]. split.
  - apply length_fmap.
  - intros i. apply list_lookup_fmap.
Qed.

(** X10. A store error on the links of a trip: the no-rows error, bare or
    wrapped, is answered "trip not found" and not logged; any other error is
    answered with the generic text and logged with the trip ID as it was
    asked. *)
Theorem GetTripsTripIDLinks_on_store_error (r : http.Request) (tripID : string)
    (id : uuid.UUID) (links : list pgstore.Link.t) (err : error) (w1 : W)
    (a : api.API W) :
  uuid.Parse tripID = (id, None) ->
  api.GetTripLinks id (api.world a) = ((links, Some err), w1) ->
  api.GetTripsTripIDLinks r tripID a
  = (api.Return
       {| spec.body :=
            spec.OfError
              {| spec.Error.Message :=
                   if errors_Is err ErrNoRows then "trip not found"
                   else "something went wrong, try again" |};
          spec.Code := 400 |},
     {| api.world := w1;
        api.logger :=
          api.logger a
          ++ (if errors_Is err ErrNoRows then []
              else [{| zap.Message := "failed to get trip links";
                       zap.Fields := [zap.Error err; zap.String "trip_id" tripID] |}]);
        api.launched := api.launched a; api.eager := api.eager a |}).
Proof.
  intros Hparse Hget. unfold api.GetTripsTripIDLinks. rewrite Hparse.
  unfold mbind, api.M_bind, api.bind, api.call. rewrite Hget.
  destruct (errors_Is err ErrNoRows); cbn; [rewrite app_nil_r | ]; reflexivity.
Qed.

(** X11. An activity request whose body does not decode, or does not pass
    validation, is answered 400 and changes nothing: the store is not
    called and nothing is logged. *)
Theorem PostTripsTripIDActivities_bad_body_changes_nothing (r : http.Request)
    (tripID : string) (id : uuid.UUID) (a : api.API W) :
  uuid.Parse tripID = (id, None) ->
  (forall body : spec.CreateActivityRequest.t,
     json.Decode (http.Body r) = inl body -> validator.Struct body <> None) ->
  snd (api.PostTripsTripIDActivities r tripID a) = a
  /\ exists msg : string,
       fst (api.PostTripsTripIDActivities r tripID a)
       = api.Return
           {| spec.body := spec.OfError {| spec.Error.Message := msg |};
              spec.Code := 400 |}
       /\ (msg = "invalid JSON" \/ exists e : error, msg = "invalid input: " +:+ Error e).
Proof.
  intros Hparse Hbad. unfold api.PostTripsTripIDActivities. rewrite Hparse.
  destruct (json.Decode (http.Body r)) as [body|e] eqn:Hdec.
  - specialize (Hbad body eq_refl).
    destruct (validator.Struct body) as [e|]; [ | contradiction ].
    split; [reflexivity | ]. eexists. split; [reflexivity | ]. right. eauto.
  - split; [reflexivity | ]. eexists. split; [reflexivity | ]. left. reflexivity.
Qed.

(** X12. When the store returns no activity for a trip (and no error), the
    answer is 200 with an empty listing, whatever the trip: "trip not found"
    is only ever the answer to a no-rows error of the store. *)
Theorem GetTripsTripIDActivities_of_no_activity (r : http.Request) (tripID : string)
    (id : uuid.UUID) (w1 : W) (a : api.API W) :
  runtime.fair Order ->
  uuid.Parse tripID = (id, None) ->
  api.GetTripActivities id (api.world a) = (([], None), w1) ->
  api.GetTripsTripIDActivities r tripID a
  = (api.Return
       {| spec.body :=
            spec.OfGetTripActivitiesResponse
              {| spec.GetTripActivitiesResponse.Activities := [] |};
          spec.Code := 200 |},
     {| api.world := w1; api.logger := api.logger a;
        api.launched := api.launched a; api.eager := api.eager a |}).
Proof.
  intros Hfair Hparse Hget. unfold api.GetTripsTripIDActivities. rewrite Hparse.
  unfold mbind, api.M_bind, api.bind, api.call. rewrite Hget.
  unfold api.outputActivities, api.groupedActivities. cbn [fold_left].
  pose proof (Hfair (list pgstore.Activity.t) ∅) as Hperm.
  rewrite map_to_list_empty in Hperm. apply Permutation_nil_r in Hperm.
  rewrite Hperm. reflexivity.
Qed.

End Handlers_any_store.

Lemma filter_ext_Forall {A : Type} (P1 P2 : A -> Prop)
    `{!forall x, Decision (P1 x), !forall x, Decision (P2 x)} (l : list A) :
  Forall (fun x => P1 x <-> P2 x) l -> filter P1 l = filter P2 l.
Proof.
  induction 1 as [|x l Hx _ IH]; [reflexivity | ].
  destruct (decide (P1 x)) as [H1|H1].
  - rewrite !filter_cons_True by tauto. f_equal. exact IH.
  - rewrite !filter_cons_False by tauto. exact IH.
Qed.

Section Listing_any_store.
Context {W : Type} {Store : api.store W} {Codec : uuid.Codec} {Order : runtime.MapOrder}.

(** X13. Each group of the listing holds all the activities of one calendar
    date and only them, in the order in which the store returned them; no
    group is empty. *)
Theorem ListActivities_groups_keep_store_order (r : http.Request) (tripID : string)
    (id : uuid.UUID) (a : api.API W) (activities : list pgstore.Activity.t) (w1 : W) :
  runtime.fair Order ->
  uuid.Parse tripID = (id, None) ->
  api.GetTripActivities id (api.world a) = ((activities, None), w1) ->
  Forall (fun act => time.civil (pgtype.Time (pgstore.Activity.OccursAt act))) activities ->
  exists groups : list spec.GetTripActivitiesResponseOuterArray.t,
    fst (api.GetTripsTripIDActivities r tripID a)
    = api.Return
        {| spec.body :=
             spec.OfGetTripActivitiesResponse
               {| spec.GetTripActivitiesResponse.Activities := groups |};
           spec.Code := 200 |}
    /\ forall g : spec.GetTripActivitiesResponseOuterArray.t,
         g ∈ groups ->
         spec.GetTripActivitiesResponseOuterArray.Activities g <> []
         /\ exists date : Z * Z * Z,
              spec.GetTripActivitiesResponseOuterArray.Activities g
              = activity_entry
                  <$> filter
                        (fun act =>
                           time.calendar_date (pgtype.Time (pgstore.Activity.OccursAt act))
                           = date)
                        activities.
Proof.
  intros Hfair Hparse Hget Hcivil.
  unfold api.GetTripsTripIDActivities. rewrite Hparse.
  unfold mbind, api.M_bind, api.bind, api.call. rewrite Hget.
  eexists. split; [reflexivity | ].
  intros g Hg. unfold api.outputActivities in Hg.
  apply list_elem_of_fmap in Hg as ([k l] & -> & Hkl).
  rewrite (Hfair _ _) in Hkl. apply elem_of_map_to_list in Hkl.
  destruct (groupedActivities_lookup activities k l Hkl) as [Hl Hne].
  destruct (time.Parse_DateOnly k) as [date e].
  cbn [spec.GetTripActivitiesResponseOuterArray.Activities].
  split.
  - unfold api.innerActs. destruct l; [contradiction | discriminate].
  - destruct l as [|act0 l']; [contradiction | ].
    assert (Hact0 : act0 ∈ filter
              (fun act => time.Format_DateOnly (pgtype.Time (pgstore.Activity.OccursAt act)) = k)
              activities) by (rewrite <- Hl; apply list_elem_of_here).
    apply list_elem_of_filter in Hact0 as [Hk0 Hin0].
    exists (time.calendar_date (pgtype.Time (pgstore.Activity.OccursAt act0))).
    unfold api.innerActs. change (fun act => _) with activity_entry at 1.
    f_equal. rewrite Hl. apply filter_ext_Forall.
    rewrite Forall_forall in Hcivil |- *. intros act Hact. split.
    + intros Hk. apply Format_DateOnly_inj; [apply Hcivil, Hact | apply Hcivil, Hin0 | ].
      congruence.
    + intros Hd. apply Format_DateOnly_of_date in Hd. congruence.
Qed.

End Listing_any_store.

(** ** More of the notifier *)

Section Notifier_any_store.
Context {W : Type} {Store : mailpit.store W} {Transport : mail.Transport W}
        {Addresses : mail.AddressParser}.

(** X14. The owner's email is not sent when the trip cannot be read or an
    address is refused: the function returns an error and the world is the
    one the lookup left, the mail transport untouched.  When it is the lookup
    that failed, the error returned wraps the store's, which a caller can
    still tell from the others with errors.Is. *)
Theorem owner_email_needs_trip_and_addresses (tripId : uuid.UUID)
    (trip : pgstore.Trip.t) (err : option error) (w w1 : W) :
  mailpit.GetTrip tripId w = ((trip, err), w1) ->
  err <> None
  \/ mail.ParseAddress "mailpit@journey.com" <> None
  \/ mail.ParseAddress (pgstore.Trip.OwnerEmail trip) <> None ->
  exists e : error,
    mailpit.SendConfirmTripEmailToTripOwner tripId w = (Some e, w1)
    /\ forall cause : error,
         err = Some cause ->
         e = fmt_Errorf "mailpit: failed to get trip for SendConfirmTripEmailToTripOwner" cause
         /\ errors_Is e ErrNoRows = errors_Is cause ErrNoRows.
Proof.
  intros Hget Hbad. unfold mailpit.SendConfirmTripEmailToTripOwner. rewrite Hget.
  destruct err as [cause|].
  { eexists. split; [reflexivity | ]. intros c [= <-]. split; reflexivity. }
  unfold mail.From, mail.To.
  destruct (mail.ParseAddress "mailpit@journey.com") as [e|].
  { eexists. split; [reflexivity | ]. intros c [=]. }
  cbn [mail.to].
  destruct (mail.ParseAddress (pgstore.Trip.OwnerEmail trip)) as [e|].
  { eexists. split; [reflexivity | ]. intros c [=]. }
  destruct Hbad as [Hbad|[Hbad|Hbad]]; contradiction.
Qed.

(** X15. When the trip is read and the two addresses are accepted, the
    transport is asked once, by the client for mailpit:1025 without TLS, to
    deliver one message: from mailpit@journey.com, to the owner's address
    alone, naming the owner, the destination and the day the trip starts;
    the function returns nil when the delivery does, and otherwise an error
    wrapping the delivery's. *)
Theorem owner_email_is_one_message_to_the_owner (tripId : uuid.UUID)
    (trip : pgstore.Trip.t) (w w1 : W) :
  mailpit.GetTrip tripId w = ((trip, None), w1) ->
  mail.ParseAddress "mailpit@journey.com" = None ->
  mail.ParseAddress (pgstore.Trip.OwnerEmail trip) = None ->
  mailpit.SendConfirmTripEmailToTripOwner tripId w
  = (fmt_Errorf "mailpit: failed to send email for SendConfirmTripEmailToTripOwner"
       <$> fst (mail.DialAndSend mailpit_client (owner_message trip) w1),
     snd (mail.DialAndSend mailpit_client (owner_message trip) w1)).
Proof.
  intros Hget Hfrom Hto. unfold mailpit.SendConfirmTripEmailToTripOwner. rewrite Hget.
  unfold mail.From, mail.To. rewrite Hfrom. cbn [mail.to]. rewrite Hto.
  change (mail.NewClient "mailpit" [mail.WithTLSPortPolicy mail.NoTLS; mail.WithPort 1025])
    with (mailpit_client, @None error).
  cbv iota beta.
  change (mail.SetBodyString _ _) with (owner_message trip).
  destruct (mail.DialAndSend mailpit_client (owner_message trip) w1) as [[e|] w2];
    reflexivity.
Qed.

(** X16. With no participant to write to, or when the participants cannot
    be read, nothing is handed to the transport: for an empty list the
    function returns nil, and for a failed lookup an error wrapping the
    store's; the world is the one the lookup left. *)
Theorem SendTripConfirmedEmails_without_participants (tripId : uuid.UUID)
    (participants : list pgstore.Participant.t) (err : option error) (w w1 : W) :
  mailpit.GetParticipants tripId w = ((participants, err), w1) ->
  err <> None \/ participants = [] ->
  mailpit.SendTripConfirmedEmails tripId w
  = (fmt_Errorf "mailpit: failed to get trip participants for SendTripConfirmedEmails"
       <$> err,
     w1).
Proof.
  intros Hget Hnone. unfold mailpit.SendTripConfirmedEmails. rewrite Hget.
  destruct err as [cause|]; [reflexivity | ].
  destruct Hnone as [Hnone| ->]; [contradiction | ].
  reflexivity.
Qed.

End Notifier_any_store.

Section Notifier_recipients.
Context {Addresses : mail.AddressParser}.

(** X17. Every message the function hands to the mail server is for one
    participant of the trip and for that participant alone: its only
    recipient is the participant's address, so no participant is shown the
    address of another; and there are no more messages than participants. *)
Theorem SendTripConfirmedEmails_one_recipient_each (tripId : uuid.UUID)
    (w : journey.World) (participants : list pgstore.Participant.t) (d : pgstore.DB) :
  pgstore.GetParticipants tripId (journey.db w) = ((participants, None), d) ->
  exists sent : list mail.Msg,
    mail.inbox (journey.server (snd (mailpit.SendTripConfirmedEmails tripId w)))
    = mail.inbox (journey.server w) ++ sent
    /\ (length sent <= length participants)%nat
    /\ forall m : mail.Msg,
         m ∈ sent ->
         exists p : pgstore.Participant.t,
           p ∈ participants /\ mail.to m = [pgstore.Participant.Email p]
           /\ mail.from m = "mailpit@journey.com".
Proof.
  intros Hget.
  unfold mailpit.SendTripConfirmedEmails.
  cbn [mailpit.GetParticipants journey.mailpit_store]. unfold journey.query.
  rewrite Hget.
  change (mail.NewClient "mailpit" [mail.WithTLSPortPolicy mail.NoTLS; mail.WithPort 1025])
    with (mailpit_client, @None error).
  cbv iota beta.
  pose proof (SendTripConfirmedEmails_loop_prefix mailpit_client participants
                {| journey.db := d; journey.server := journey.server w |}) as H.
  destruct (mailpit.SendTripConfirmedEmails_loop _ participants _) as [err w'].
  cbn [journey.db journey.server snd] in H |- *.
  destruct H as (_ & k & Hinbox & _ & _).
  exists (confirmation_for <$> take k participants).
  split; [exact Hinbox | split].
  - rewrite length_fmap, length_take. lia.
  - intros m Hm. apply list_elem_of_fmap in Hm as (p & -> & Hp).
    exists p. split; [ | split; reflexivity ].
    eapply subseteq_take, Hp.
Qed.

End Notifier_recipients.

(** ** Store errors while listing activities *)

Section Listing_errors.
Context {W : Type} {Store : api.store W} {Codec : uuid.Codec} {Order : runtime.MapOrder}.

(** X18. A store error on the activities of a trip is always logged, with
    the trip ID as it was asked, also when it is the no-rows error (which the
    other handlers do not log); the answer is "trip not found" for no-rows
    and the generic text otherwise. *)
Theorem GetTripsTripIDActivities_on_store_error (r : http.Request) (tripID : string)
    (id : uuid.UUID) (activities : list pgstore.Activity.t) (err : error) (w1 : W)
    (a : api.API W) :
  uuid.Parse tripID = (id, None) ->
  api.GetTripActivities id (api.world a) = ((activities, Some err), w1) ->
  api.GetTripsTripIDActivities r tripID a
  = (api.Return
       {| spec.body :=
            spec.OfError
              {| spec.Error.Message :=
                   if errors_Is err ErrNoRows then "trip not found"
                   else "something went wrong, try again" |};
          spec.Code := 400 |},
     {| api.world := w1;
        api.logger :=
          api.logger a
          ++ [{| zap.Message := "failed to get trip activities";
                 zap.Fields := [zap.Error err; zap.String "trip_id" tripID] |}];
        api.launched := api.launched a; api.eager := api.eager a |}).
Proof.
  intros Hparse Hget. unfold api.GetTripsTripIDActivities. rewrite Hparse.
  unfold mbind, api.M_bind, api.bind, api.call. rewrite Hget.
  destruct (errors_Is err ErrNoRows); reflexivity.
Qed.

End Listing_errors.

(** ** The properties above at work on the wired program *)

Lemma malformed_id_rejected_before_the_store_witness :
  let a := journey.start false (sample.db false) sample.quiet in
  uuid.Parse "not-a-uuid" = (uuid.Nil, Some (errors_New "invalid UUID length"))
  /\ rejects "invalid trip id" (api.GetTripsTripID (fixture.request "") "not-a-uuid") a
  /\ rejects "uuid inválido"
       (api.PatchParticipantsParticipantIDConfirm (fixture.request "") "not-a-uuid") a.
Proof.
  intros a.
  assert (Hparse : uuid.Parse "not-a-uuid"
                   = (uuid.Nil, Some (errors_New "invalid UUID length"))) by reflexivity.
  pose proof (malformed_id_rejected_before_the_store (fixture.request "") "not-a-uuid"
                uuid.Nil (errors_New "invalid UUID length") a Hparse) as H.
  split; [exact Hparse | split; [apply H | apply H]].
Defined.

Lemma PostTrips_bad_request_changes_nothing_witness :
  let a := journey.start true (sample.db false) sample.quiet in
  snd (api.PostTrips (fixture.request "garbage") a) = a
  /\ error_message <$> returned (fst (api.PostTrips (fixture.request "garbage") a))
     = Some (Some "invalid JSON").
Proof.
  intros a.
  assert (Hbad : forall body : spec.CreateTripRequest.t,
             json.Decode (http.Body (fixture.request "garbage")) = inl body ->
             validator.Struct body <> None)
    by (intros body Hdec; discriminate Hdec).
  pose proof (PostTrips_bad_request_changes_nothing (fixture.request "garbage") a Hbad)
    as H.
  destruct H as (Hstate & _).
  split; [exact Hstate | reflexivity].
Defined.

Lemma PutTripsTripID_updates_only_valid_requests_witness :
  let a := journey.start false (sample.db false) sample.quiet in
  let served := api.PutTripsTripID (fixture.request "garbage") sample.nobody_id a in
  error_message <$> returned (fst served) = Some (Some "trip not found")
  /\ pgstore.executed (database (snd served)) = [pgstore.ExecGetTrip 9%N].
Proof.
  intros a served.
  assert (Hparse : uuid.Parse sample.nobody_id = (9%N, None)) by reflexivity.
  assert (Hget : api.GetTrip 9%N (api.world a)
                 = ((pgstore.Trip.zero, Some ErrNoRows),
                    {| journey.db := pgstore.record (pgstore.ExecGetTrip 9%N) (sample.db false);
                       journey.server := sample.quiet |})) by reflexivity.
  assert (Hbad : Some ErrNoRows <> None
                 \/ (forall body : spec.UpdateTripRequest.t,
                       json.Decode (http.Body (fixture.request "garbage")) = inl body ->
                       validator.Struct body <> None))
    by (left; discriminate).
  pose proof (PutTripsTripID_updates_only_valid_requests (fixture.request "garbage")
                sample.nobody_id 9%N pgstore.Trip.zero (Some ErrNoRows) _ a
                Hparse Hget Hbad) as H.
  destruct H as (Hworld & msg & Hout & Hmsg).
  unfold served, database. rewrite Hworld, Hout, Hmsg. split; reflexivity.
Defined.

Lemma PutTripsTripID_hands_over_what_it_read_witness :
  let a := journey.start false (sample.db true) sample.quiet in
  let served := api.PutTripsTripID (fixture.request "lyon.json") sample.trip_id a in
  fst served = api.Return {| spec.body := spec.Nil; spec.Code := 204 |}
  /\ pgstore.executed (database (snd served))
     = [pgstore.ExecGetTrip 1%N; pgstore.ExecUpdateTrip 1%N].
Proof.
  intros a served.
  assert (Hparse : uuid.Parse sample.trip_id = (1%N, None)) by reflexivity.
  assert (Hget : api.GetTrip 1%N (api.world a)
                 = ((sample.trip true, None),
                    {| journey.db := pgstore.record (pgstore.ExecGetTrip 1%N) (sample.db true);
                       journey.server := sample.quiet |})) by reflexivity.
  assert (Hdec : json.Decode (http.Body (fixture.request "lyon.json")) = inl fixture.lyon)
    by reflexivity.
  assert (Hval : validator.Struct fixture.lyon = None) by reflexivity.
  pose proof (PutTripsTripID_hands_over_what_it_read (fixture.request "lyon.json")
                sample.trip_id 1%N (sample.trip true) fixture.lyon _ a
                Hparse Hget Hdec Hval) as H.
  destruct (api.UpdateTrip _ _) as [err w2] eqn:Hupdate in H.
  vm_compute in Hupdate. injection Hupdate as <- <-.
  unfold served. rewrite H. split; reflexivity.
Defined.

Lemma GetTripsTripIDLinks_lists_in_store_order_witness :
  let a := journey.start false sample.linked sample.quiet in
  exists listed : list spec.GetLinksResponseArray.t,
    fst (api.GetTripsTripIDLinks (fixture.request "") sample.trip_id a)
    = api.Return (spec.GetTripsTripIDLinksJSON200Response
                    {| spec.GetLinksResponse.Links := listed |})
    /\ spec.GetLinksResponseArray.Title <$> listed = ["Hotel"; "Tickets"].
Proof.
  intros a.
  assert (Hparse : uuid.Parse sample.trip_id = (1%N, None)) by reflexivity.
  assert (Hget : api.GetTripLinks 1%N (api.world a)
                 = ((sample.bookmarks, None),
                    {| journey.db := pgstore.record (pgstore.ExecGetTripLinks 1%N) sample.linked;
                       journey.server := sample.quiet |})) by reflexivity.
  destruct (GetTripsTripIDLinks_lists_in_store_order (fixture.request "") sample.trip_id
              1%N sample.bookmarks _ a Hparse Hget) as (listed & Hout & Hlen & Hith).
  exists listed. rewrite Hout. split; [reflexivity | ].
  apply list_eq. intros i. rewrite list_lookup_fmap, Hith.
  destruct i as [|[|[|i]]]; reflexivity.
Defined.

Lemma GetTripsTripIDLinks_on_store_error_witness :
  let a := journey.start false sample.offline sample.quiet in
  let served := api.GetTripsTripIDLinks (fixture.request "") sample.trip_id a in
  error_message <$> returned (fst served) = Some (Some "something went wrong, try again")
  /\ zap.Message <$> api.logger (snd served) = ["failed to get trip links"].
Proof.
  intros a served.
  assert (Hparse : uuid.Parse sample.trip_id = (1%N, None)) by reflexivity.
  assert (Hget : api.GetTripLinks 1%N (api.world a)
                 = (([], Some pgstore.unavailable), api.world a)) by reflexivity.
  unfold served.
  rewrite (GetTripsTripIDLinks_on_store_error (fixture.request "") sample.trip_id 1%N
             [] pgstore.unavailable _ a Hparse Hget).
  split; reflexivity.
Defined.

Lemma PostTripsTripIDActivities_bad_body_changes_nothing_witness :
  let a := journey.start false (sample.db false) sample.quiet in
  snd (api.PostTripsTripIDActivities (fixture.request "garbage") sample.trip_id a) = a.
Proof.
  intros a.
  assert (Hparse : uuid.Parse sample.trip_id = (1%N, None)) by reflexivity.
  assert (Hbad : forall body : spec.CreateActivityRequest.t,
             json.Decode (http.Body (fixture.request "garbage")) = inl body ->
             validator.Struct body <> None)
    by (intros body Hdec; discriminate Hdec).
  exact (proj1 (PostTripsTripIDActivities_bad_body_changes_nothing
                  (fixture.request "garbage") sample.trip_id 1%N a Hparse Hbad)).
Defined.

Lemma GetTripsTripIDActivities_of_no_activity_witness :
  let a := journey.start false (sample.db false) sample.quiet in
  pgstore.trips (database a) !! 9%N = None
  /\ fst (api.GetTripsTripIDActivities (fixture.request "") sample.nobody_id a)
     = api.Return (spec.GetTripsTripIDActivitiesJSON200Response
                     {| spec.GetTripActivitiesResponse.Activities := [] |}).
Proof.
  intros a.
  assert (Hfair : runtime.fair fixture.order) by (intros V m; reflexivity).
  assert (Hparse : uuid.Parse sample.nobody_id = (9%N, None)) by reflexivity.
  assert (Hget : api.GetTripActivities 9%N (api.world a)
                 = (([], None),
                    {| journey.db :=
                         pgstore.record (pgstore.ExecGetTripActivities 9%N) (sample.db false);
                       journey.server := sample.quiet |})) by reflexivity.
  rewrite (GetTripsTripIDActivities_of_no_activity (fixture.request "") sample.nobody_id
             9%N _ a Hfair Hparse Hget).
  split; reflexivity.
Defined.

Lemma ListActivities_groups_keep_store_order_witness :
  let a := journey.start false sample.planned sample.quiet in
  exists groups : list spec.GetTripActivitiesResponseOuterArray.t,
    fst (api.GetTripsTripIDActivities (fixture.request "") sample.trip_id a)
    = api.Return
        (spec.GetTripsTripIDActivitiesJSON200Response
           {| spec.GetTripActivitiesResponse.Activities := groups |})
    /\ Forall
         (fun g => spec.GetTripActivitiesResponseOuterArray.Activities g <> [])
         groups.
Proof.
  intros a.
  assert (Hfair : runtime.fair fixture.order) by (intros V m; reflexivity).
  assert (Hparse : uuid.Parse sample.trip_id = (1%N, None)) by reflexivity.
  assert (Hget : api.GetTripActivities 1%N (api.world a)
                 = ((sample.plans, None),
                    {| journey.db :=
                         pgstore.record (pgstore.ExecGetTripActivities 1%N) sample.planned;
                       journey.server := sample.quiet |})) by reflexivity.
  assert (Hcivil : Forall (fun act => time.civil (pgtype.Time (pgstore.Activity.OccursAt act)))
                     sample.plans)
    by (repeat constructor; cbn; lia).
  pose proof (ListActivities_groups_keep_store_order (fixture.request "") sample.trip_id
                1%N a sample.plans _ Hfair Hparse Hget Hcivil) as H.
  destruct H as (groups & Hout & Hgroups).
  exists groups. split; [exact Hout | ].
  apply Forall_forall. intros g Hg. exact (proj1 (Hgroups g Hg)).
Defined.

Lemma owner_email_needs_trip_and_addresses_witness :
  let w := {| journey.db := sample.db false; journey.server := sample.quiet |} in
  exists e : error,
    fst (mailpit.SendConfirmTripEmailToTripOwner 9%N w) = Some e
    /\ errors_Is e ErrNoRows = true
    /\ mail.inbox (journey.server (snd (mailpit.SendConfirmTripEmailToTripOwner 9%N w))) = [].
Proof.
  intros w.
  assert (Hget : mailpit.GetTrip 9%N w
                 = ((pgstore.Trip.zero, Some ErrNoRows),
                    {| journey.db := pgstore.record (pgstore.ExecGetTrip 9%N) (sample.db false);
                       journey.server := sample.quiet |})) by reflexivity.
  assert (Hwhy : Some ErrNoRows <> None
                 \/ mail.ParseAddress "mailpit@journey.com" <> None
                 \/ mail.ParseAddress (pgstore.Trip.OwnerEmail pgstore.Trip.zero) <> None)
    by (left; discriminate).
  pose proof (owner_email_needs_trip_and_addresses 9%N pgstore.Trip.zero (Some ErrNoRows)
                w _ Hget Hwhy) as H.
  destruct H as (e & Hsend & Hcause).
  exists e. rewrite Hsend. split; [reflexivity | split; [ | reflexivity]].
  destruct (Hcause ErrNoRows eq_refl) as [_ His]. rewrite His. reflexivity.
Defined.

Lemma owner_email_is_one_message_to_the_owner_witness :
  let w := {| journey.db := sample.db false; journey.server := sample.quiet |} in
  let sent := mailpit.SendConfirmTripEmailToTripOwner 1%N w in
  fst sent = None
  /\ mail.to <$> mail.inbox (journey.server (snd sent)) = [["a@x.com"]].
Proof.
  intros w sent.
  assert (Hget : mailpit.GetTrip 1%N w
                 = ((sample.trip false, None),
                    {| journey.db := pgstore.record (pgstore.ExecGetTrip 1%N) (sample.db false);
                       journey.server := sample.quiet |})) by reflexivity.
  assert (Hfrom : mail.ParseAddress "mailpit@journey.com" = None) by reflexivity.
  assert (Hto : mail.ParseAddress (pgstore.Trip.OwnerEmail (sample.trip false)) = None)
    by reflexivity.
  unfold sent.
  rewrite (owner_email_is_one_message_to_the_owner 1%N (sample.trip false) w _
             Hget Hfrom Hto).
  split; reflexivity.
Defined.

Lemma SendTripConfirmedEmails_without_participants_witness :
  let w := {| journey.db := sample.db true; journey.server := sample.quiet |} in
  let sent := mailpit.SendTripConfirmedEmails 9%N w in
  fst sent = None /\ journey.server (snd sent) = sample.quiet.
Proof.
  intros w sent.
  assert (Hget : mailpit.GetParticipants 9%N w
                 = (([], None),
                    {| journey.db :=
                         pgstore.record (pgstore.ExecGetParticipants 9%N) (sample.db true);
                       journey.server := sample.quiet |})) by reflexivity.
  assert (Hnone : (None : option error) <> None
                  \/ ([] : list pgstore.Participant.t) = []) by (right; reflexivity).
  unfold sent.
  rewrite (SendTripConfirmedEmails_without_participants 9%N [] None w _ Hget Hnone).
  split; reflexivity.
Defined.

Lemma SendTripConfirmedEmails_one_recipient_each_witness :
  let w := {| journey.db := sample.invited;
              journey.server := {| mail.inbox := []; mail.dial := [true; true; false] |} |} in
  exists sent : list mail.Msg,
    mail.inbox (journey.server (snd (mailpit.SendTripConfirmedEmails 1%N w))) = sent
    /\ (length sent <= 3)%nat
    /\ Forall (fun m => mail.from m = "mailpit@journey.com") sent.
Proof.
  intros w.
  assert (Hget : pgstore.GetParticipants 1%N (journey.db w)
                 = (([sample.guest 8%N "c@x.com"; sample.guest 9%N "d@x.com"; sample.bob],
                     None),
                    pgstore.record (pgstore.ExecGetParticipants 1%N) sample.invited))
    by reflexivity.
  pose proof (SendTripConfirmedEmails_one_recipient_each 1%N w _ _ Hget) as H.
  destruct H as (sent & Hinbox & Hlen & Hsent).
  exists sent. split; [exact Hinbox | split; [exact Hlen | ]].
  apply Forall_forall. intros m Hm.
  destruct (Hsent m Hm) as (p & _ & _ & Hfrom). exact Hfrom.
Defined.

Lemma GetTripsTripIDActivities_on_store_error_witness :
  let a := journey.start false sample.offline sample.quiet in
  let served := api.GetTripsTripIDActivities (fixture.request "") sample.trip_id a in
  error_message <$> returned (fst served) = Some (Some "something went wrong, try again")
  /\ zap.Message <$> api.logger (snd served) = ["failed to get trip activities"].
Proof.
  intros a served.
  assert (Hparse : uuid.Parse sample.trip_id = (1%N, None)) by reflexivity.
  assert (Hget : api.GetTripActivities 1%N (api.world a)
                 = (([], Some pgstore.unavailable), api.world a)) by reflexivity.
  unfold served.
  rewrite (GetTripsTripIDActivities_on_store_error (fixture.request "") sample.trip_id 1%N
             [] pgstore.unavailable _ a Hparse Hget).
  split; reflexivity.
Defined.
